(** * IMG-TGBed: the listing and ingestion handlers

    A shallow embedding of [functions/upload_url.js] (ingestion of external
    image URLs through the Telegram bot API) and of the listing handler
    (pagination over the KV namespace, metadata retrieval, record
    normalisation), followed by the properties proved about them.

    Conventions of the embedding.
    - JavaScript values are the JSON data the handlers manipulate
      ([value]).  A number is a double, given by its exact value; a string
      is a sequence of code units below 256.
    - A computation that may throw is a [completion]; a computation that
      also talks to the KV namespace or to the network is a state
      transformer over [World] ([M]).
    - Whatever the program calls but does not define (JSON.parse, the URL
      parser, fetch, the KV binding, Date.now, Math.random) is a field of
      the [Host] interface. *)

From Stdlib Require Import ZArith String Ascii List Bool Lia DecimalString.
From stdpp Require Import base gmap strings list.
Import ListNotations.

Set Warnings "-register-all".
Local Open Scope Z_scope.
Local Open Scope string_scope.
Local Open Scope list_scope.

(** ** Values *)

Inductive number : Type :=
| NaN
| Int (z : Z)
| Frac (m : Z) (e : positive)
| Inf (negative : bool).

Inductive value : Type :=
| VUndefined
| VNull
| VBool (b : bool)
| VNum (n : number)
| VStr (s : string)
| VArr (elems : list value)
| VObj (fields : list (string * value)).

(** Outcome of evaluating an expression or a function body. *)
Inductive completion (A : Type) : Type :=
| Return (a : A)
| Throw (e : value).
Arguments Return {A} a.
Arguments Throw {A} e.

Definition bindC {A B} (c : completion A) (k : A -> completion B) : completion B :=
  match c with
  | Return a => k a
  | Throw e => Throw e
  end.

Notation "'let!' x ':=' c 'in' k" := (bindC c (fun x => k))
  (at level 10, x name, c at level 100, k at level 200).

(** An error object as the engine builds it; only [message] is ever read. *)
Definition TypeError (msg : string) : value :=
  VObj [("name", VStr "TypeError"); ("message", VStr msg)].

(** ** Strings *)

Definition code (c : ascii) : N := N_of_ascii c.

(** White space of [String.prototype.trim] and of [parseInt] among the code
    units below 256: TAB, LF, VT, FF, CR, SP and NBSP. *)
Definition is_space (c : ascii) : bool :=
  let n := code c in
  ((9 <=? n) && (n <=? 13) || (n =? 32) || (n =? 160))%N.

Definition is_digit (c : ascii) : bool :=
  let n := code c in ((48 <=? n) && (n <=? 57))%N.

Definition is_upper (c : ascii) : bool :=
  let n := code c in ((65 <=? n) && (n <=? 90))%N.

Definition is_lower (c : ascii) : bool :=
  let n := code c in ((97 <=? n) && (n <=? 122))%N.

Definition is_alnum (c : ascii) : bool := is_digit c || is_upper c || is_lower c.

Definition lower (c : ascii) : ascii :=
  if is_upper c then ascii_of_N (code c + 32) else c.

Fixpoint trimStart (s : string) : string :=
  match s with
  | String c r => if is_space c then trimStart r else s
  | EmptyString => EmptyString
  end.

Fixpoint rev_string (acc s : string) : string :=
  match s with
  | EmptyString => acc
  | String c r => rev_string (String c acc) r
  end.

Definition trimEnd (s : string) : string :=
  rev_string "" (trimStart (rev_string "" s)).

(** [s.trim()] *)
Definition trim (s : string) : string := trimEnd (trimStart s).

(** [s.startsWith(p)] *)
Fixpoint startsWith (p s : string) : bool :=
  match p, s with
  | EmptyString, _ => true
  | String a p', String b s' => Ascii.eqb a b && startsWith p' s'
  | String _ _, EmptyString => false
  end.

(** [s.slice(n)] for a non-negative [n] *)
Fixpoint slice_from (n : nat) (s : string) : string :=
  match n, s with
  | O, _ => s
  | S n', String _ r => slice_from n' r
  | S _, EmptyString => EmptyString
  end.

(** [s.slice(0, n)] for a non-negative [n] *)
Fixpoint slice_to (n : nat) (s : string) : string :=
  match n, s with
  | S n', String c r => String c (slice_to n' r)
  | _, _ => EmptyString
  end.

Fixpoint map_string (f : ascii -> ascii) (s : string) : string :=
  match s with
  | EmptyString => EmptyString
  | String c r => String (f c) (map_string f r)
  end.

(** [s.toLowerCase()] on a string of ASCII letters and digits *)
Definition toLowerCase (s : string) : string := map_string lower s.

(** The decimal numeral of an integer *)
Definition string_of_Z (z : Z) : string := NilZero.string_of_int (Z.to_int z).

(** ** Numbers

    A number is a double: NaN, an infinity, or the exact value of a finite
    double, written [Int z] when it is an integer and [Frac m e], for the odd
    mantissa [m], when it is [m / 2^e].  Negative zero is not told apart
    from zero: both are falsy, print as 0 and compare alike. *)

Local Open Scope Z_scope.

(** The quotient [n / d] rounded to the nearest integer, a tie going to the
    even one. *)
Definition div_half_even (n d : Z) : Z :=
  let '(q, r) := Z.div_eucl n d in
  if (d <? 2 * r) || ((2 * r =? d) && Z.odd q) then q + 1 else q.

Fixpoint trailing_zeros (p : positive) : nat :=
  match p with
  | xO p' => S (trailing_zeros p')
  | _ => O
  end.

(** The number [m * 2^u] for a mantissa [m >= 0], in lowest terms. *)
Definition scaled (negative : bool) (m u : Z) : number :=
  let sign z := if negative then - z else z in
  match m with
  | Zpos p =>
      if 0 <=? u then Int (sign (Z.shiftl m u))
      else
        let t := Z.min (Z.of_nat (trailing_zeros p)) (- u) in
        match u + t with
        | Zneg e => Frac (sign (Z.shiftr m t)) e
        | _ => Int (sign (Z.shiftr m t))
        end
  | _ => Int 0
  end.

(** The double nearest to [p / q], for [p >= 0] and [q > 0]: 53 significant
    bits, no bit below [2^-1074], a tie going to the even mantissa, and
    infinity from [2^1024] on. *)
Definition double_of_Q (negative : bool) (p q : Z) : number :=
  if p =? 0 then Int 0 else
  let l := Z.log2 p - Z.log2 q in
  let e :=
    if (if 0 <=? l then Z.shiftl q l <=? p else q <=? Z.shiftl p (- l)) then l else l - 1 in
  let u := Z.max (e - 52) (-1074) in
  let m :=
    if 0 <=? u then div_half_even p (Z.shiftl q u) else div_half_even (Z.shiftl p (- u)) q in
  if 1024 <=? Z.log2 m + u then Inf negative else scaled negative m u.

(** The double of [s * 10^j], for [s >= 0] *)
Definition double_of_decimal (negative : bool) (s j : Z) : number :=
  if 0 <=? j then double_of_Q negative (s * 10 ^ j) 1
  else double_of_Q negative s (10 ^ (- j)).

(** The double a number stands for *)
Definition canonical (n : number) : number :=
  match n with
  | Int z => double_of_Q (z <? 0) (Z.abs z) 1
  | Frac m e => double_of_Q (m <? 0) (Z.abs m) (2 ^ Zpos e)
  | _ => n
  end.

Definition number_eqb (a b : number) : bool :=
  match a, b with
  | NaN, NaN => true
  | Int x, Int y => x =? y
  | Frac m e, Frac m' e' => (m =? m') && (e =? e')%positive
  | Inf s, Inf s' => Bool.eqb s s'
  | _, _ => false
  end.

(** [a < b] on numbers; false when an operand is NaN. *)
Definition number_ltb (a b : number) : bool :=
  match a, b with
  | NaN, _ | _, NaN => false
  | Int x, Int y => x <? y
  | Inf s, Inf s' => s && negb s'
  | Inf s, _ => s
  | _, Inf s' => negb s'
  | Int x, Frac m e => x * 2 ^ Zpos e <? m
  | Frac m e, Int y => m <? y * 2 ^ Zpos e
  | Frac m e, Frac m' e' => m * 2 ^ Zpos e' <? m' * 2 ^ Zpos e
  end.

(** *** Number::toString *)

(** [p / q < 10^n] *)
Definition below_pow10 (p q n : Z) : bool :=
  if 0 <=? n then p <? q * 10 ^ n else p * 10 ^ (- n) <? q.

(** The least [n] with [p / q < 10^n], found next to its estimate from the
    binary logarithms. *)
Definition decimal_exponent (p q : Z) : Z :=
  let est := (Z.log2 p - Z.log2 q) * 30103 / 100000 in
  if below_pow10 p q (est - 1) then est - 1
  else if below_pow10 p q est then est
  else if below_pow10 p q (est + 1) then est + 1
  else est + 2.

(** A numeral [s * 10^(n-k)] of [k] digits that reads back as the double
    [p / q], if there is one: the nearer of the two next to [p / q], the even
    one when they are as near. *)
Definition try_digits (p q n k : Z) : option (Z * Z) :=
  let x := double_of_Q false p q in
  let j := n - k in
  let lo := if 0 <=? j then p / (q * 10 ^ j) else p * 10 ^ (- j) / q in
  let hi := lo + 1 in
  let ok_lo := (0 <? lo) && number_eqb (double_of_decimal false lo j) x in
  let ok_hi := number_eqb (double_of_decimal false hi j) x in
  let middle :=
    if 0 <=? j then Z.compare (2 * p) ((lo + hi) * 10 ^ j * q)
    else Z.compare (2 * p * 10 ^ (- j)) ((lo + hi) * q) in
  match ok_lo, ok_hi with
  | true, true =>
      match middle with
      | Lt => Some (lo, j)
      | Gt => Some (hi, j)
      | Eq => Some (if Z.even lo then lo else hi, j)
      end
  | true, false => Some (lo, j)
  | false, true => Some (hi, j)
  | false, false => None
  end.

(** The shortest such numeral, from [k] digits on; 17 digits always do. *)
Fixpoint shortest (fuel : nat) (p q n k : Z) : Z * Z :=
  match fuel with
  | O => (if 0 <=? n - k then p / (q * 10 ^ (n - k)) else p * 10 ^ (k - n) / q, n - k)
  | S fuel' =>
      match try_digits p q n k with
      | Some r => r
      | None => shortest fuel' p q n (k + 1)
      end
  end.

Fixpoint strip_zeros (fuel : nat) (s j : Z) : Z * Z :=
  match fuel with
  | O => (s, j)
  | S fuel' =>
      if (s mod 10 =? 0) && negb (s =? 0) then strip_zeros fuel' (s / 10) (j + 1)
      else (s, j)
  end.

Fixpoint zeros (n : nat) : string :=
  match n with
  | O => ""
  | S n' => String "0" (zeros n')
  end.

(** The numeral of the positive double [p / q]: its digits [ds], [k] of
    them, and the position [n] of the decimal point. *)
Definition positive_to_string (p q : Z) : string :=
  let '(s0, j0) := shortest 17 p q (decimal_exponent p q) 1 in
  let '(s, j) := strip_zeros 17 s0 j0 in
  let ds := string_of_Z s in
  let k := Z.of_nat (String.length ds) in
  let n := j + k in
  if (k <=? n) && (n <=? 21) then ds +:+ zeros (Z.to_nat (n - k))
  else if (0 <? n) && (n <=? 21)
  then slice_to (Z.to_nat n) ds +:+ "." +:+ slice_from (Z.to_nat n) ds
  else if (-6 <? n) && (n <=? 0) then "0." +:+ zeros (Z.to_nat (- n)) +:+ ds
  else
    let e := n - 1 in
    let exponent := (if e <? 0 then "e-" else "e+") +:+ string_of_Z (Z.abs e) in
    if k =? 1 then ds +:+ exponent
    else slice_to 1 ds +:+ "." +:+ slice_from 1 ds +:+ exponent.

(** Number::toString in radix 10 *)
Definition number_to_string (n : number) : string :=
  match canonical n with
  | NaN => "NaN"
  | Inf true => "-Infinity"
  | Inf false => "Infinity"
  | Int 0 => "0"
  | Int z => (if z <? 0 then "-" else "") +:+ positive_to_string (Z.abs z) 1
  | Frac m e => (if m <? 0 then "-" else "") +:+ positive_to_string (Z.abs m) (2 ^ Zpos e)
  end.

(** *** ToNumber on a string, parseInt *)

Definition digit_val (c : ascii) : Z := Z.of_N (code c) - 48.

Fixpoint digits_value (acc : Z) (s : string) : Z :=
  match s with
  | String c r => if is_digit c then digits_value (10 * acc + digit_val c) r else acc
  | EmptyString => acc
  end.

(** The value of a digit in a radix up to 16 *)
Definition radix_digit (radix : Z) (c : ascii) : option Z :=
  let n := Z.of_N (code c) in
  let d :=
    if is_digit c then n - 48
    else if (97 <=? n) && (n <=? 102) then n - 87
    else if (65 <=? n) && (n <=? 70) then n - 55
    else radix in
  if d <? radix then Some d else None.

Fixpoint radix_value (radix acc : Z) (s : string) : option Z :=
  match s with
  | EmptyString => Some acc
  | String c r =>
      match radix_digit radix c with
      | Some d => radix_value radix (radix * acc + d) r
      | None => None
      end
  end.

(** The longest run of decimal digits at the head of a string, and the rest *)
Fixpoint span_digits (s : string) : string * string :=
  match s with
  | String c r =>
      if is_digit c then let '(ds, rest) := span_digits r in (String c ds, rest)
      else ("", s)
  | EmptyString => ("", "")
  end.

(** ExponentPart or nothing, up to the end of the string *)
Definition exponent_part (s : string) : option Z :=
  match s with
  | EmptyString => Some 0
  | String c r =>
      if Ascii.eqb c "e" || Ascii.eqb c "E" then
        let '(negative, body) :=
          match r with
          | String "-" r' => (true, r')
          | String "+" r' => (false, r')
          | _ => (false, r)
          end in
        match span_digits body with
        | (String d ds, EmptyString) =>
            Some (if negative then - digits_value 0 (String d ds)
                  else digits_value 0 (String d ds))
        | _ => None
        end
      else None
  end.

(** StrUnsignedDecimalLiteral: Infinity, or digits with an optional
    fraction and an optional exponent.  A numeral of 310 digits or more
    before the point is infinite and one below [10^-324] is 0, whatever the
    size of its exponent. *)
Definition decimal_literal (negative : bool) (s : string) : number :=
  if String.eqb s "Infinity" then Inf negative else
  let '(ip, r1) := span_digits s in
  let '(fp, r2) :=
    match r1 with
    | String "." r => span_digits r
    | _ => ("", r1)
    end in
  if String.eqb ip "" && String.eqb fp "" then NaN else
  match exponent_part r2 with
  | None => NaN
  | Some e =>
      let m := digits_value 0 (ip +:+ fp) in
      let j := e - Z.of_nat (String.length fp) in
      let size := j + Z.of_nat (String.length (string_of_Z m)) in
      if m =? 0 then Int 0
      else if 310 <=? size then Inf negative
      else if size <=? -324 then Int 0
      else double_of_decimal negative m j
  end.

(** The digits of a literal in radix 16, 8 or 2, after its prefix *)
Definition radix_literal (radix : Z) (s : string) : number :=
  match s with
  | EmptyString => NaN
  | _ =>
      match radix_value radix 0 s with
      | Some v => double_of_Q false v 1
      | None => NaN
      end
  end.

(** ToNumber on a string as the language defines it (StringNumericLiteral):
    white space around is dropped, the empty string is 0, and what is no
    numeral is NaN. *)
Definition string_to_number (s : string) : number :=
  match trim s with
  | EmptyString => Int 0
  | String "-" r => decimal_literal true r
  | String "+" r => decimal_literal false r
  | String "0" (String x r) as t =>
      if Ascii.eqb x "x" || Ascii.eqb x "X" then radix_literal 16 r
      else if Ascii.eqb x "o" || Ascii.eqb x "O" then radix_literal 8 r
      else if Ascii.eqb x "b" || Ascii.eqb x "B" then radix_literal 2 r
      else decimal_literal false t
  | t => decimal_literal false t
  end.

(** [parseInt(s, 10)] on a string: leading white space, an optional sign,
    then the longest run of decimal digits, read as the double nearest to
    their value; NaN when that run is empty. *)
Definition parseInt10 (s : string) : number :=
  let t := trimStart s in
  let '(negative, body) :=
    match t with
    | String "-" r => (true, r)
    | String "+" r => (false, r)
    | _ => (false, t)
    end in
  match body with
  | String c _ => if is_digit c then double_of_Q negative (digits_value 0 body) 1 else NaN
  | EmptyString => NaN
  end.

Local Open Scope string_scope.
Local Open Scope list_scope.

(** ** Coercions *)

Definition truthy (v : value) : bool :=
  match v with
  | VUndefined | VNull => false
  | VBool b => b
  | VNum NaN => false
  | VNum (Int z) => negb (Z.eqb z 0)
  | VNum (Frac m _) => negb (Z.eqb m 0)
  | VNum (Inf _) => true
  | VStr s => negb (String.eqb s "")
  | VArr _ | VObj _ => true
  end.

(** [v == null] *)
Definition nullish (v : value) : bool :=
  match v with
  | VUndefined | VNull => true
  | _ => false
  end.

Fixpoint assoc (k : string) (fs : list (string * value)) : value :=
  match fs with
  | [] => VUndefined
  | (k', v) :: r => if String.eqb k k' then v else assoc k r
  end.

Fixpoint has_key (k : string) (fs : list (string * value)) : bool :=
  match fs with
  | [] => false
  | (k', _) :: r => String.eqb k k' || has_key k r
  end.

(** [v.k] for the property names the handlers read (url, title, ok, result,
    description, photo, message_id, file_id, file_size, fileName, TimeStamp,
    uploadTime, storageType, list, message): none of them lives on a
    prototype, so on a primitive or an array the read yields undefined, and
    on null or undefined it throws. *)
Definition get_prop (v : value) (k : string) : completion value :=
  match v with
  | VUndefined =>
      Throw (TypeError ("Cannot read properties of undefined (reading '" +:+ k +:+ "')"))
  | VNull =>
      Throw (TypeError ("Cannot read properties of null (reading '" +:+ k +:+ "')"))
  | VObj fs => Return (assoc k fs)
  | _ => Return VUndefined
  end.

(** [a || b], with [b] evaluated only when [a] is falsy *)
Definition or_else (a : value) (b : completion value) : completion value :=
  if truthy a then Return a else b.

(** ToString.  An object answers "[object Object]" through
    Object.prototype.toString unless an own data property named toString
    shadows it, in which case no primitive can be obtained.  An array joins
    the strings of its elements, null and undefined counting as empty. *)
Fixpoint to_string (v : value) : completion string :=
  match v with
  | VUndefined => Return "undefined"
  | VNull => Return "null"
  | VBool true => Return "true"
  | VBool false => Return "false"
  | VNum n => Return (number_to_string n)
  | VStr s => Return s
  | VArr l =>
      (fix join (l : list value) : completion string :=
         match l with
         | [] => Return ""
         | x :: r =>
             let! s := (match x with
                        | VUndefined | VNull => Return ""
                        | _ => to_string x
                        end) in
             match r with
             | [] => Return s
             | _ :: _ => let! t := join r in Return (s +:+ "," +:+ t)
             end
         end) l
  | VObj fs =>
      if has_key "toString" fs
      then Throw (TypeError "Cannot convert object to primitive value")
      else Return "[object Object]"
  end.

(** ** The host interface *)

(** What [fetch] followed by [res.json()] yields: the call rejects with an
    error, or it resolves and the body either parses to [data] or does not. *)
Inductive fetch_outcome : Type :=
| FetchRejects (e : value)
| FetchResolves (json : option value).

(** The object returned by [kv.list]. *)
Record ListResult : Type := {
  keys : list string;
  list_complete : bool;
  cursor : value
}.

(** Calls that leave the handler, most recent first in a log. *)
Inductive event : Type :=
| EvFetch (url : string) (body : list (string * string))
| EvList (limit : Z) (cur : value)
| EvGet (key : string)
| EvPut (key text : string) (metadata : value).

(** The answers of the platform and of the outside world.  An answer may
    depend on everything that left the handler so far. *)
Class Host : Type := {
  (** [JSON.parse]; [None] when it throws a SyntaxError *)
  JSON_parse : string -> option value;
  (** [new URL(s).pathname]; [None] when the constructor throws *)
  URL_pathname : string -> option string;
  (** ToNumber on a string; [string_to_number] on an engine that follows
      the language *)
  StringToNumber : string -> number;
  fetch : list event -> string -> list (string * string) -> fetch_outcome;
  kv_list : list event -> gmap string (string * value) -> Z -> value -> completion ListResult;
  (** [Some e] when [kv.getWithMetadata] rejects with [e] *)
  kv_get_fault : list event -> string -> option value;
  (** which of the rejected calls of a batch is the first to reject *)
  kv_first_rejection : list event -> nat;
  (** [Some e] when [kv.put] rejects with [e] *)
  kv_put_fault : list event -> string -> string -> value -> option value;
  Date_now : list event -> Z;
  (** [Math.random().toString(36).slice(2, 10)] *)
  Math_random_id : list event -> string
}.

(** ** The world outside the handler *)

(** The KV namespace maps a key to its text value and its metadata (null
    when the key was stored without any). *)
Record World : Type := {
  kv : gmap string (string * value);
  log : list event
}.

Definition M (A : Type) : Type := World -> completion A * World.

Definition ret {A} (a : A) : M A := fun w => (Return a, w).

Definition lift {A} (c : completion A) : M A := fun w => (c, w).

Definition bindM {A B} (c : M A) (k : A -> M B) : M B :=
  fun w =>
    match c w with
    | (Return a, w') => k a w'
    | (Throw e, w') => (Throw e, w')
    end.

Notation "'do!' x ':=' c 'in' k" := (bindM c (fun x => k))
  (at level 10, x name, c at level 100, k at level 200).

Definition emit (ev : event) (w : World) : World :=
  {| kv := kv w; log := ev :: log w |}.

(** What [kv.getWithMetadata(name, {type: "text"})] resolves to. *)
Record KVEntry : Type := {
  entry_value : option string;
  entry_metadata : value
}.

Section Calls.
Context `{Host}.

Definition call_fetch (url : string) (body : list (string * string)) : M fetch_outcome :=
  fun w => (Return (fetch (log w) url body), emit (EvFetch url body) w).

Definition call_list (limit : Z) (cur : value) : M ListResult :=
  fun w => (kv_list (log w) (kv w) limit cur, emit (EvList limit cur) w).

Definition call_getWithMetadata (name : string) : M KVEntry :=
  fun w =>
    (match kv_get_fault (log w) name with
     | Some e => Throw e
     | None =>
         match kv w !! name with
         | Some (text, metadata) =>
             Return {| entry_value := Some text; entry_metadata := metadata |}
         | None => Return {| entry_value := None; entry_metadata := VNull |}
         end
     end, emit (EvGet name) w).

(** [kv.put(key, text, {metadata})]; a rejected write leaves the namespace
    as it was. *)
Definition call_put (key text : string) (metadata : value) : M unit :=
  fun w =>
    match kv_put_fault (log w) key text metadata with
    | Some e => (Throw e, emit (EvPut key text metadata) w)
    | None =>
        (Return tt,
         {| kv := <[key := (text, metadata)]> (kv w);
            log := EvPut key text metadata :: log w |})
    end.

Definition call_Date_now : M Z := fun w => (Return (Date_now (log w)), w).

Definition call_Math_random_id : M string :=
  fun w => (Return (Math_random_id (log w)), w).

(** ToPrimitive on the JSON data at hand: neither a plain object nor an
    array has a primitive valueOf, so both go through ToString. *)
Definition to_primitive (v : value) : completion value :=
  match v with
  | VArr _ | VObj _ => let! s := to_string v in Return (VStr s)
  | _ => Return v
  end.

Definition to_number (p : value) : number :=
  match p with
  | VUndefined => NaN
  | VNull => Int 0
  | VBool true => Int 1
  | VBool false => Int 0
  | VNum n => n
  | VStr s => StringToNumber s
  | VArr _ | VObj _ => NaN
  end.

(** [a > b]: two strings compare by code units, anything else as numbers,
    and a NaN operand makes the comparison false. *)
Definition js_gt (a b : value) : completion bool :=
  let! pa := to_primitive a in
  let! pb := to_primitive b in
  match pa, pb with
  | VStr x, VStr y => Return (String.ltb y x)
  | _, _ => Return (number_ltb (to_number pb) (to_number pa))
  end.

Fixpoint reduce_from (f : value -> value -> completion value)
    (acc : value) (l : list value) : completion value :=
  match l with
  | [] => Return acc
  | cur :: r => let! a := f acc cur in reduce_from f a r
  end.

(** [arr.reduce(f)] without an initial value *)
Definition reduce (f : value -> value -> completion value) (arr : list value)
    : completion value :=
  match arr with
  | [] => Throw (TypeError "Reduce of empty array with no initial value")
  | first :: r => reduce_from f first r
  end.

End Calls.

(** ** Requests, responses, configuration *)

Record Request : Type := {
  (** [url.searchParams.get("pwd")] *)
  query_pwd : option string;
  (** [url.searchParams.get("cursor")] *)
  query_cursor : option string;
  (** [request.headers.get("Authorization")] *)
  header_Authorization : option string;
  (** [url.origin] *)
  url_origin : string;
  (** [request.json()]; [None] when it rejects *)
  request_json : option value
}.

(** A response, with the body before [JSON.stringify]. *)
Record Response : Type := {
  status : Z;
  body : value;
  headers : list (string * string)
}.

Record Env : Type := {
  BASIC_PASS : option string;
  TG_Bot_Token : option string;
  TG_Chat_ID : option string;
  (** whether the KV namespace is bound *)
  img_url : bool
}.

(** An environment variable as a value: unset reads as undefined. *)
Definition var (x : option string) : value :=
  match x with
  | Some s => VStr s
  | None => VUndefined
  end.

(** ** functions/upload_url.js *)

Module UploadUrl.

Definition CORS_HEADERS : list (string * string) :=
  [("Access-Control-Allow-Origin", "*");
   ("Access-Control-Allow-Methods", "POST, OPTIONS");
   ("Access-Control-Allow-Headers", "Content-Type, Authorization")].

Definition jsonResponse (b : value) (st : Z) (hs : list (string * string)) : Response :=
  {| status := st;
     body := b;
     headers := ("Content-Type", "application/json") :: CORS_HEADERS ++ hs |}.

Definition errResponse (message : string) (st : Z) : Response :=
  jsonResponse (VObj [("error", VStr message)]) st [].

(** The password of a request: the pwd parameter of the URL, else the Bearer
    value of the Authorization header, else null. *)
Definition getPassword (request : Request) : option string :=
  let bearer :=
    match header_Authorization request with
    | Some auth =>
        if truthy (VStr auth) && startsWith "Bearer " auth
        then Some (trim (slice_from 7 auth))
        else None
    | None => None
    end in
  match query_pwd request with
  | Some pwd => if negb (String.eqb pwd "") then Some pwd else bearer
  | None => bearer
  end.

(** Authentication: the password must equal [env.BASIC_PASS]. *)
Definition checkAuth (request : Request) (env : Env) : bool :=
  match BASIC_PASS env with
  | None => true
  | Some pass =>
      if String.eqb pass "" then true
      else match getPassword request with
           | Some pwd => String.eqb pwd pass
           | None => false
           end
  end.

Section WithHost.
Context `{Host}.

Fixpoint ext_scan (rev_path acc : string) : option string :=
  match rev_path with
  | String c r =>
      if is_alnum c then ext_scan r (String c acc)
      else if Ascii.eqb c "." then (if String.eqb acc "" then None else Some acc)
      else None
  | EmptyString => None
  end.

(** [path.match(/\.([a-z0-9]+)$/i)], giving the captured group *)
Definition match_extension (path : string) : option string :=
  ext_scan (rev_string "" path) "".

(** The image extension read off the URL, jpg by default. *)
Definition getExtensionFromUrl (urlStr : string) : string :=
  match URL_pathname urlStr with
  | Some path =>
      match match_extension path with
      | Some m1 => toLowerCase m1
      | None => "jpg"
      end
  | None => "jpg"
  end.

(** The file_id of the sendPhoto result, taken from the largest entry of
    [result.photo]. *)
Definition getFileIdFromPhoto (result : value) : completion value :=
  if negb (truthy result) then Return VNull else
  let! photo := get_prop result "photo" in
  match photo with
  | VArr ((_ :: _) as arr) =>
      let! largest :=
        reduce (fun prev cur =>
          if negb (truthy prev) then Return cur else
          let! pf := get_prop prev "file_size" in
          let! ps := or_else pf (Return (VNum (Int 0))) in
          let! cf := get_prop cur "file_size" in
          let! cs := or_else cf (Return (VNum (Int 0))) in
          let! gt := js_gt ps cs in
          Return (if gt then prev else cur)) arr in
      get_prop largest "file_id"
  | _ => Return VNull
  end.

(** The file_size taken from the same [result.photo]. *)
Definition getFileSizeFromPhoto (result : value) : completion value :=
  if negb (truthy result) then Return (VNum (Int 0)) else
  let! photo := get_prop result "photo" in
  match photo with
  | VArr ((_ :: _) as arr) =>
      let! largest :=
        reduce (fun prev cur =>
          if negb (truthy prev) then Return cur else
          let! pf := get_prop prev "file_size" in
          let! ps := or_else pf (Return (VNum (Int 0))) in
          let! cf := get_prop cur "file_size" in
          let! cs := or_else cf (Return (VNum (Int 0))) in
          let! gt := js_gt ps cs in
          Return (if gt then prev else cur)) arr in
      let! fs := get_prop largest "file_size" in
      or_else fs (Return (VNum (Int 0)))
  | _ => Return (VNum (Int 0))
  end.

(** A random file name, for an item without title. *)
Definition randomFileName (ext : string) : M string :=
  do! id := call_Math_random_id in
  ret ("image_" +:+ id +:+ "." +:+ ext).

(** The result object of a failed item. *)
Definition failure (imageUrl error : value) : value :=
  VObj [("url", imageUrl); ("success", VBool false); ("error", error)].

(** [const { url: imageUrl, title } = item] *)
Definition destructure_item (item : value) : completion (value * value) :=
  match item with
  | VUndefined =>
      Throw (TypeError "Cannot destructure property 'url' of 'item' as it is undefined.")
  | VNull =>
      Throw (TypeError "Cannot destructure property 'url' of 'item' as it is null.")
  | _ =>
      let! imageUrl := get_prop item "url" in
      let! title := get_prop item "title" in
      Return (imageUrl, title)
  end.

(** One item: call sendPhoto with the URL, read the file_id, write the record
    to the namespace, and return the new link or the error. *)
Definition processOne (item : value) (env : Env) (baseUrl : string) : M value :=
  do! fields := lift (destructure_item item) in
  let '(imageUrl, title) := fields in
  match imageUrl with
  | VStr u =>
      if negb (truthy imageUrl)
      then ret (failure imageUrl (VStr "missing or invalid url")) else
      do! token := lift (to_string (var (TG_Bot_Token env))) in
      let apiUrl := "https://api.telegram.org/bot" +:+ token +:+ "/sendPhoto" in
      do! chat_id := lift (to_string (var (TG_Chat_ID env))) in
      do! caption :=
        lift (if negb (nullish title)
              then let! s := to_string title in Return (slice_to 1024 s)
              else Return "") in
      let params := [("chat_id", chat_id); ("photo", trim u); ("caption", caption)] in
      do! res := call_fetch apiUrl params in
      match res with
      | FetchRejects e =>
          do! msg := lift (get_prop e "message") in
          do! error := lift (or_else msg (Return (VStr "network error"))) in
          ret (failure imageUrl error)
      | FetchResolves None =>
          ret (failure imageUrl (VStr "invalid response from Telegram"))
      | FetchResolves (Some data) =>
          do! ok := lift (get_prop data "ok") in
          do! rejected :=
            (if negb (truthy ok) then ret true
             else do! r := lift (get_prop data "result") in ret (negb (truthy r))) in
          if (rejected : bool) then
            do! d := lift (get_prop data "description") in
            do! desc := lift (or_else d (Return (VStr "Telegram API error"))) in
            ret (failure imageUrl desc)
          else
          do! result := lift (get_prop data "result") in
          do! fileId := lift (getFileIdFromPhoto result) in
          if negb (truthy fileId)
          then ret (failure imageUrl (VStr "no file_id in response")) else
          let ext := getExtensionFromUrl u in
          do! fid := lift (to_string fileId) in
          let kvKey := fid +:+ "." +:+ ext in
          do! fileName :=
            (if negb (nullish title) then
               do! s := lift (to_string title) in
               if truthy (VStr (trim s))
               then do! s' := lift (to_string title) in ret (trim s')
               else randomFileName ext
             else randomFileName ext) in
          do! fileSize := lift (getFileSizeFromPhoto result) in
          do! messageId := lift (get_prop result "message_id") in
          do! _ :=
            (if img_url env then
               do! now := call_Date_now in
               call_put kvKey ""
                 (VObj [("TimeStamp", VNum (Int now));
                        ("ListType", VStr "None");
                        ("Label", VStr "None");
                        ("liked", VBool false);
                        ("fileName", VStr fileName);
                        ("fileSize", fileSize);
                        ("storageType", VStr "telegram");
                        ("telegramMessageId", messageId)])
             else ret tt) in
          let newLink := baseUrl +:+ "/file/" +:+ kvKey in
          ret (VObj [("url", imageUrl); ("success", VBool true);
                     ("src", VStr newLink); ("fileName", VStr fileName)])
      end
  | _ => ret (failure imageUrl (VStr "missing or invalid url"))
  end.

(** [for (const item of list) results.push(await processOne(...))] *)
Fixpoint process_list (items : list value) (env : Env) (baseUrl : string)
    (results : list value) : M (list value) :=
  match items with
  | [] => ret results
  | item :: rest =>
      do! one := processOne item env baseUrl in
      process_list rest env baseUrl (results ++ [one])
  end.

Definition onRequestPost (request : Request) (env : Env) : M Response :=
  if negb (checkAuth request env) then ret (errResponse "Unauthorized" 401) else
  if negb (truthy (var (TG_Bot_Token env))) || negb (truthy (var (TG_Chat_ID env)))
  then ret (errResponse "TG_Bot_Token or TG_Chat_ID not configured" 500) else
  match request_json request with
  | None => ret (errResponse "Invalid JSON body" 400)
  | Some json =>
      do! lst := lift (if nullish json then Return VUndefined else get_prop json "list") in
      match lst with
      | VArr ((_ :: _) as items) =>
          let baseUrl := url_origin request in
          do! results := process_list items env baseUrl [] in
          ret (jsonResponse (VObj [("results", VArr results)]) 200 [])
      | _ =>
          ret (errResponse
                 "body must be { list: [ { url, title? } ] } with at least one item" 400)
      end
  end.

Definition onRequestOptions : Response :=
  {| status := 204;
     body := VNull;
     headers := CORS_HEADERS ++ [("Access-Control-Max-Age", "86400")] |}.

End WithHost.
End UploadUrl.

(** ** The listing handler *)

Module Listing.

Definition CORS_HEADERS : list (string * string) :=
  [("Access-Control-Allow-Origin", "*");
   ("Access-Control-Allow-Methods", "GET, OPTIONS");
   ("Access-Control-Allow-Headers", "Content-Type")].

Definition LIST_PAGE_SIZE : Z := 1000.
Definition BATCH_SIZE : nat := 50.

Definition jsonResponse (b : value) (st : Z) (hs : list (string * string)) : Response :=
  {| status := st;
     body := b;
     headers := ("Content-Type", "application/json") :: CORS_HEADERS ++ hs |}.

Definition errResponse (message : value) (st : Z) : Response :=
  jsonResponse (VObj [("error", message)]) st [].

Definition hex_digit (n : N) : ascii :=
  if (n <? 10)%N then ascii_of_N (48 + n) else ascii_of_N (55 + n).

Definition percent (n : N) : string :=
  String "%" (String (hex_digit (n / 16)) (String (hex_digit (n mod 16)) "")).

Definition uri_unreserved (c : ascii) : bool :=
  is_alnum c ||
  existsb (Ascii.eqb c) ["-"; "_"; "."; "!"; "~"; "*"; "'"; "("; ")"]%char.

(** A code unit below 128 is one UTF-8 byte, one below 256 is two. *)
Definition encode_unit (c : ascii) : string :=
  if uri_unreserved c then String c ""
  else if (code c <? 128)%N then percent (code c)
  else percent (192 + code c / 64) +:+ percent (128 + code c mod 64).

Fixpoint encodeURIComponent (s : string) : string :=
  match s with
  | EmptyString => EmptyString
  | String c r => encode_unit c +:+ encodeURIComponent r
  end.

(** The record built for one key by the metadata fetcher. *)
Record Fetched : Type := {
  name : string;
  value_text : option string;
  metadata : value
}.

Section WithHost.
Context `{Host}.

(** The do-while loop of [listAllKeys]; [None] when [fuel] iterations were
    not enough for the namespace to report completion. *)
Fixpoint listAllKeys_loop (fuel : nat) (names : list string) (nextCursor : value)
    (w : World) : option (completion (list string) * World) :=
  match fuel with
  | O => None
  | S fuel' =>
      match call_list LIST_PAGE_SIZE nextCursor w with
      | (Throw e, w') => Some (Throw e, w')
      | (Return result, w') =>
          let names' := names ++ keys result in
          let next := if list_complete result then VNull else cursor result in
          if truthy next then listAllKeys_loop fuel' names' next w'
          else Some (Return names', w')
      end
  end.

Definition listAllKeys (fuel : nat) (cur : value) (w : World)
    : option (completion (list string) * World) :=
  listAllKeys_loop fuel [] cur w.

(** The record of one key, from its metadata and its value text. *)
Definition buildItem (origin keyName : string) (metadata : value)
    (valueText : option string) : completion value :=
  let extra :=
    match valueText with
    | Some text =>
        if truthy (VStr text) && truthy (VStr (trim text))
        then match JSON_parse text with
             | Some parsed => parsed
             | None => VObj []
             end
        else VObj []
    | None => VObj []
    end in
  let m := if truthy metadata then metadata else VObj [] in
  let url := origin +:+ "/file/" +:+ encodeURIComponent keyName in
  let! mf := get_prop m "fileName" in
  let! fileName :=
    or_else mf (let! ef := get_prop extra "fileName" in
                or_else ef (Return (VStr keyName))) in
  let! mt := get_prop m "TimeStamp" in
  let! uploadTime :=
    if negb (nullish mt) then Return mt else
    let! eu := get_prop extra "uploadTime" in
    if negb (nullish eu) then Return eu else
    let! et := get_prop extra "TimeStamp" in
    if negb (nullish et) then Return et else Return VNull in
  let! coerced :=
    if negb (nullish uploadTime) then
      match uploadTime with
      | VNum _ => Return uploadTime
      | _ => let! s := to_string uploadTime in Return (VNum (parseInt10 s))
      end
    else Return VNull in
  let! st := get_prop m "storageType" in
  Return (VObj ([("key", VStr keyName); ("url", VStr url);
                 ("fileName", fileName); ("uploadTime", coerced)]
                ++ (if truthy st then [("storageType", st)] else []))).

(** One call of the batch: [{ name, value: r?.value ?? null, metadata:
    r?.metadata ?? null }]. *)
Definition fetch_one (key : string) : M Fetched :=
  do! r := call_getWithMetadata key in
  ret {| name := key;
         value_text := entry_value r;
         metadata := if nullish (entry_metadata r) then VNull else entry_metadata r |}.

(** [batch.map(...)]: every call of the batch is issued, in order. *)
Fixpoint promise_all (batch : list string) (w : World)
    : list (completion Fetched) * World :=
  match batch with
  | [] => ([], w)
  | key :: rest =>
      let '(c, w1) := fetch_one key w in
      let '(cs, w2) := promise_all rest w1 in
      (c :: cs, w2)
  end.

(** [Promise.all]: the results in the order of the calls when none of them
    rejects; otherwise the rejection of the call that is the first to reject,
    which is for the host to tell among the rejected ones. *)
Definition settle (l : list event) (cs : list (completion Fetched))
    : completion (list Fetched) :=
  match omap (fun c => match c with Throw e => Some e | Return _ => None end) cs with
  | [] => Return (omap (fun c => match c with Return x => Some x | Throw _ => None end) cs)
  | e :: es => Throw (nth (kv_first_rejection l) (e :: es) e)
  end.

(** The for loop of [fetchAllWithMetadata], unrolled at most [fuel] times. *)
Fixpoint fetch_batches (fuel : nat) (keyNames : list string) (i : nat)
    (results : list Fetched) : M (list Fetched) :=
  match fuel with
  | O => ret results
  | S fuel' =>
      if (i <? length keyNames)%nat then
        let batch := take BATCH_SIZE (drop i keyNames) in
        do! batchResults :=
          (fun w => let '(cs, w') := promise_all batch w in (settle (log w') cs, w')) in
        fetch_batches fuel' keyNames (i + BATCH_SIZE) (results ++ batchResults)
      else ret results
  end.

(** The index grows by [BATCH_SIZE] each round, so [length keyNames] rounds
    always reach the end of the list. *)
Definition fetchAllWithMetadata (keyNames : list string) : M (list Fetched) :=
  fetch_batches (length keyNames) keyNames 0 [].

Fixpoint map_items (origin : string) (fetched : list Fetched) : completion (list value) :=
  match fetched with
  | [] => Return []
  | f :: rest =>
      let! item := buildItem origin (name f) (metadata f) (value_text f) in
      let! items := map_items origin rest in
      Return (item :: items)
  end.

(** The body of the try block of [onRequestGet]. *)
Definition list_all (fuel : nat) (request : Request) (w : World)
    : option (completion Response * World) :=
  let cur :=
    match query_cursor request with
    | Some c => if truthy (VStr c) then VStr c else VUndefined
    | None => VUndefined
    end in
  match listAllKeys fuel cur w with
  | None => None
  | Some (Throw e, w1) => Some (Throw e, w1)
  | Some (Return keyNames, w1) =>
      Some (bindM (fetchAllWithMetadata keyNames) (fun fetched =>
              do! items := lift (map_items (url_origin request) fetched) in
              ret (jsonResponse
                     (VObj [("list", VArr items);
                            ("total", VNum (Int (Z.of_nat (length items))))])
                     200 [])) w1)
  end.

Definition onRequestGet (fuel : nat) (request : Request) (env : Env) (w : World)
    : option (completion Response * World) :=
  let pwd := query_pwd request in
  let denied :=
    match BASIC_PASS env with
    | Some pass =>
        if negb (String.eqb pass "")
        then negb (bool_decide (pwd = Some pass))
        else false
    | None => false
    end in
  if denied then Some (Return (errResponse (VStr "Unauthorized") 401), w) else
  if negb (img_url env)
  then Some (Return (errResponse (VStr "KV namespace img_url not configured") 500), w) else
  match list_all fuel request w with
  | None => None
  | Some (Return response, w') => Some (Return response, w')
  | Some (Throw e, w') =>
      Some ((let! msg := get_prop e "message" in
             let! message := or_else msg (Return (VStr "Internal error")) in
             Return (errResponse message 500)), w')
  end.

Definition onRequestOptions : Response :=
  {| status := 204;
     body := VNull;
     headers := CORS_HEADERS ++ [("Access-Control-Max-Age", "86400")] |}.

End WithHost.
End Listing.

(** ** A sample host

    One concrete world to run the handlers in: a namespace of three keys
    listed over two pages, a bot API that accepts some URLs and rejects
    others, and a JSON parser given by its graph on the texts used below
    (every other text used below is not JSON). *)

Module Sample.

Definition dq : string := String (ascii_of_nat 34) "".

(** The text [{"fileName":"b"}] *)
Definition text_fileName_b : string :=
  "{" +:+ dq +:+ "fileName" +:+ dq +:+ ":" +:+ dq +:+ "b" +:+ dq +:+ "}".

(** The text [{"uploadTime":9,"TimeStamp":8}] *)
Definition text_times : string :=
  "{" +:+ dq +:+ "uploadTime" +:+ dq +:+ ":9," +:+ dq +:+ "TimeStamp" +:+ dq +:+ ":8}".

(** The text [{"uploadTime":9,"TimeStamp":9}] *)
Definition text_nines : string :=
  "{" +:+ dq +:+ "uploadTime" +:+ dq +:+ ":9," +:+ dq +:+ "TimeStamp" +:+ dq +:+ ":9}".

(** The text [{"TimeStamp":"12px"}] *)
Definition text_legacy : string :=
  "{" +:+ dq +:+ "TimeStamp" +:+ dq +:+ ":" +:+ dq +:+ "12px" +:+ dq +:+ "}".

(** The text [{"fileName":""}] *)
Definition text_fileName_empty : string :=
  "{" +:+ dq +:+ "fileName" +:+ dq +:+ ":" +:+ dq +:+ dq +:+ "}".

Definition parse (s : string) : option value :=
  if String.eqb s text_fileName_b then Some (VObj [("fileName", VStr "b")])
  else if String.eqb s text_times
  then Some (VObj [("uploadTime", VNum (Int 9)); ("TimeStamp", VNum (Int 8))])
  else if String.eqb s text_nines
  then Some (VObj [("uploadTime", VNum (Int 9)); ("TimeStamp", VNum (Int 9))])
  else if String.eqb s text_legacy then Some (VObj [("TimeStamp", VStr "12px")])
  else if String.eqb s text_fileName_empty then Some (VObj [("fileName", VStr "")])
  else if String.eqb s "null" then Some VNull
  else None.

Definition pathname (s : string) : option string :=
  if String.eqb s "https://x.com/pic.PNG?x=1" then Some "/pic.PNG"
  else if String.eqb s "https://x.com/pic" then Some "/pic"
  else if String.eqb s "https://x.com/locked.png" then Some "/locked.png"
  else None.

Definition photo (id : string) (size : Z) : value :=
  VObj [("file_id", VStr id); ("file_size", VNum (Int size))].

Definition sent (message_id : Z) (photos : list value) : value :=
  VObj [("ok", VBool true);
        ("result", VObj [("message_id", VNum (Int message_id)); ("photo", VArr photos)])].

Definition bot (params : list (string * string)) : fetch_outcome :=
  match params with
  | [(_, _); (_, p); (_, _)] =>
      if String.eqb p "https://x.com/pic.PNG?x=1"
      then FetchResolves (Some (sent 7 [photo "small" 100; photo "big" 300]))
      else if String.eqb p "https://x.com/locked.png"
      then FetchResolves (Some (sent 8 [photo "locked" 10]))
      else if String.eqb p "https://x.com/pic"
      then FetchRejects (VObj [("message", VStr "fetch failed")])
      else FetchResolves
             (Some (VObj [("ok", VBool false); ("error_code", VNum (Int 400));
                          ("description", VStr "Bad Request: wrong HTTP URL specified")]))
  | _ => FetchResolves None
  end.

Definition pages (cur : value) : completion ListResult :=
  match cur with
  | VUndefined =>
      Return {| keys := ["a.png"; "b.jpg"]; list_complete := false; cursor := VStr "p2" |}
  | _ => Return {| keys := ["c.gif"]; list_complete := true; cursor := VUndefined |}
  end.

Definition put_fault (key : string) : option value :=
  if String.eqb key "locked.png"
  then Some (VObj [("message", VStr "KV PUT failed: 429 Too Many Requests")])
  else None.

Definition host : Host := {|
  JSON_parse := parse;
  URL_pathname := pathname;
  StringToNumber := string_to_number;
  fetch := fun _ _ params => bot params;
  kv_list := fun _ _ _ cur => pages cur;
  kv_get_fault := fun _ _ => None;
  kv_first_rejection := fun _ => O;
  kv_put_fault := fun _ key _ _ => put_fault key;
  Date_now := fun _ => 1700000000000;
  Math_random_id := fun _ => "k3x9q2ab"
|}.

Definition world : World :=
  {| kv := <["a.png" := ("", VObj [("fileName", VStr "a")])]>
             (<["b.jpg" := ("", VNull)]> (<["c.gif" := ("", VNull)]> ∅));
     log := [] |}.

Definition env : Env :=
  {| BASIC_PASS := Some "s3cret";
     TG_Bot_Token := Some "123:abc";
     TG_Chat_ID := Some "-100";
     img_url := true |}.

End Sample.

(** ** Vocabulary of the statements *)






(** A field of an attribute bag; anything that is not a bag has none. *)
Definition field (bag : value) (k : string) : value :=
  match bag with
  | VObj fs => assoc k fs
  | _ => VUndefined
  end.

(** Access is granted when no secret is configured or when the presented
    credential is the secret. *)
Definition authorized (secret credential : option string) : Prop :=
  secret = None \/ secret = Some "" \/ credential = secret.

Section Vocabulary.
Context `{Host}.

(** The callback both reductions over [result.photo] are written with. *)
Definition keep_larger (prev cur : value) : completion value :=
  if negb (truthy prev) then Return cur else
  let! pf := get_prop prev "file_size" in
  let! ps := or_else pf (Return (VNum (Int 0))) in
  let! cf := get_prop cur "file_size" in
  let! cs := or_else cf (Return (VNum (Int 0))) in
  let! gt := js_gt ps cs in
  Return (if gt then prev else cur).

(** The variant a reduction over [result.photo] ends on, if there is a
    photo list to reduce. *)
Definition selected (result : value) : completion (option value) :=
  if negb (truthy result) then Return None else
  let! photo := get_prop result "photo" in
  match photo with
  | VArr (first :: rest) =>
      let! largest := reduce keep_larger (first :: rest) in Return (Some largest)
  | _ => Return None
  end.

(** The extra data carried by a value text: the parsed text when it is not
    blank and parses, nothing otherwise. *)
Definition payload (valueText : option string) : value :=
  match valueText with
  | Some text =>
      if String.eqb text "" || String.eqb (trim text) "" then VObj []
      else default (VObj []) (JSON_parse text)
  | None => VObj []
  end.



(** The namespace answers a walk that starts at [cur] with the given pages:
    every call returns at most [LIST_PAGE_SIZE] names together with either
    the completion signal or a cursor to continue from. *)
Inductive paged : World -> value -> list (list string) -> World -> Prop :=
| paged_last w cur r :
    kv_list (log w) (kv w) Listing.LIST_PAGE_SIZE cur = Return r ->
    (Z.of_nat (length (keys r)) <= Listing.LIST_PAGE_SIZE)%Z ->
    list_complete r = true ->
    paged w cur [keys r] (emit (EvList Listing.LIST_PAGE_SIZE cur) w)
| paged_more w cur r pages w' :
    kv_list (log w) (kv w) Listing.LIST_PAGE_SIZE cur = Return r ->
    (Z.of_nat (length (keys r)) <= Listing.LIST_PAGE_SIZE)%Z ->
    list_complete r = false ->
    truthy (cursor r) = true ->
    paged (emit (EvList Listing.LIST_PAGE_SIZE cur) w) (cursor r) pages w' ->
    paged w cur (keys r :: pages) w'.

End Vocabulary.

(** Whether a logged call writes to the namespace. *)
Definition is_put (ev : event) : bool :=
  match ev with
  | EvPut _ _ _ => true
  | _ => false
  end.

(** Nothing was written between two worlds: the namespace is the same and
    no call logged in between is a put. *)
Definition no_write (w w' : World) : Prop :=
  kv w' = kv w /\
  exists calls, log w' = calls ++ log w /\
                forallb (fun ev => negb (is_put ev)) calls = true.

(** A computation that never writes. *)
Definition quiet {A} (c : M A) : Prop :=
  forall w a w', c w = (Return a, w') -> no_write w w'.

(** A computation whose failure results come without a write. *)
Definition fails_quietly (c : M value) : Prop :=
  forall w r w', c w = (Return r, w') -> field r "success" = VBool false -> no_write w w'.

(** A computation that only returns success results. *)
Definition succeeds (c : M value) : Prop :=
  forall w r w', c w = (Return r, w') -> field r "success" = VBool true.

(** Timestamp coercion: null stays null, a number passes through, anything
    else is parsed as a base-10 integer. *)
Definition coerce_time (t : value) : completion value :=
  match t with
  | VUndefined | VNull => Return VNull
  | VNum n => Return (VNum n)
  | other => let! s := to_string other in Return (VNum (parseInt10 s))
  end.

(** The size operand of the comparison: [v.file_size || 0]. *)
Definition size_or_zero (v : value) : completion value :=
  let! fs := get_prop v "file_size" in or_else fs (Return (VNum (Int 0))).

(** The pwd check of the listing handler. *)
Definition listing_denied (request : Request) (env : Env) : bool :=
  match BASIC_PASS env with
  | Some pass =>
      if negb (String.eqb pass "")
      then negb (bool_decide (query_pwd request = Some pass))
      else false
  | None => false
  end.

(** Whether every code unit of a string passes a test. *)
Fixpoint all_chars (P : ascii -> bool) (s : string) : bool :=
  match s with
  | EmptyString => true
  | String c r => P c && all_chars P r
  end.

(** A lower-case letter or a digit. *)
Definition is_lower_alnum (c : ascii) : bool := is_digit c || is_lower c.

(** The record the metadata fetcher builds for a key from the namespace. *)
Definition stored_record (m : gmap string (string * value)) (key : string)
    : Listing.Fetched :=
  match m !! key with
  | Some (text, md) =>
      {| Listing.name := key;
         Listing.value_text := Some text;
         Listing.metadata := if nullish md then VNull else md |}
  | None =>
      {| Listing.name := key; Listing.value_text := None; Listing.metadata := VNull |}
  end.

(** Whether a logged call only reads the namespace. *)
Definition is_read (ev : event) : bool :=
  match ev with
  | EvList _ _ | EvGet _ => true
  | EvFetch _ _ | EvPut _ _ _ => false
  end.

(** A namespace whose list never signals completion and always hands a cursor. *)
Definition endless_host : Host := {|
  JSON_parse := Sample.parse;
  URL_pathname := Sample.pathname;
  StringToNumber := string_to_number;
  fetch := fun _ _ params => Sample.bot params;
  kv_list := fun _ _ _ _ =>
    Return {| keys := ["a.png"]; list_complete := false; cursor := VStr "more" |};
  kv_get_fault := fun _ _ => None;
  kv_first_rejection := fun _ => O;
  kv_put_fault := fun _ _ _ _ => None;
  Date_now := fun _ => 1700000000000;
  Math_random_id := fun _ => "k3x9q2ab"
|}.

(** A namespace whose get of the key b.jpg is always rejected. *)
Definition flaky_host : Host := {|
  JSON_parse := Sample.parse;
  URL_pathname := Sample.pathname;
  StringToNumber := string_to_number;
  fetch := fun _ _ params => Sample.bot params;
  kv_list := fun _ _ _ cur => Sample.pages cur;
  kv_get_fault := fun _ key =>
    if String.eqb key "b.jpg" then Some (VObj [("message", VStr "KV GET failed")])
    else None;
  kv_first_rejection := fun _ => O;
  kv_put_fault := fun _ _ _ _ => None;
  Date_now := fun _ => 1700000000000;
  Math_random_id := fun _ => "k3x9q2ab"
|}.

(** The value of a hexadecimal digit, upper case as the encoder writes it. *)
Definition hex_value (c : ascii) : option N :=
  let n := code c in
  if is_digit c then Some (n - 48)%N
  else if ((65 <=? n) && (n <=? 70))%N then Some (n - 55)%N
  else None.

(** Reads one escape [%XY] at the head of a string. *)
Definition read_escape (s : string) : option (N * string) :=
  match s with
  | String "%" (String x (String y rest)) =>
      match hex_value x, hex_value y with
      | Some h, Some l => Some (16 * h + l, rest)%N
      | _, _ => None
      end
  | _ => None
  end.

(** Reads back the first code unit of an encoded string: a literal
    character, one escape below 128, or the two escapes of a code unit from
    128 to 255. *)
Definition decode_first (s : string) : option (ascii * string) :=
  match s with
  | EmptyString => None
  | String c rest =>
      if Ascii.eqb c "%" then
        match read_escape s with
        | Some (b, rest1) =>
            if (b <? 128)%N then Some (ascii_of_N b, rest1)
            else match read_escape rest1 with
                 | Some (b2, rest2) => Some (ascii_of_N ((b - 192) * 64 + (b2 - 128)), rest2)
                 | None => None
                 end
        | None => None
        end
      else Some (c, rest)
  end.

(** Items and requests to run the handlers on. *)
Definition item_cat : value :=
  VObj [("url", VStr "https://x.com/pic.PNG?x=1"); ("title", VStr " cat ")].

Definition result_cat : value :=
  VObj [("url", VStr "https://x.com/pic.PNG?x=1"); ("success", VBool true);
        ("src", VStr "https://h/file/big.png"); ("fileName", VStr "cat")].

Definition item_rejected : value := VObj [("url", VStr "not-a-url")].

Definition result_rejected : value :=
  VObj [("url", VStr "not-a-url"); ("success", VBool false);
        ("error", VStr "Bad Request: wrong HTTP URL specified")].

Definition request_post (items : list value) : Request :=
  {| query_pwd := None; query_cursor := None;
     header_Authorization := Some "Bearer s3cret";
     url_origin := "https://h";
     request_json := Some (VObj [("list", VArr items)]) |}.

Definition request_list : Request :=
  {| query_pwd := Some "s3cret"; query_cursor := None; header_Authorization := None;
     url_origin := "https://h"; request_json := None |}.

(** The metadata stored for [item_cat] on the sample host. *)
Definition record_cat : value :=
  VObj [("TimeStamp", VNum (Int 1700000000000)); ("ListType", VStr "None");
        ("Label", VStr "None"); ("liked", VBool false); ("fileName", VStr "cat");
        ("fileSize", VNum (Int 300)); ("storageType", VStr "telegram");
        ("telegramMessageId", VNum (Int 7))].

(** * Properties *)

Example parseInt10_examples :
  parseInt10 "  42px" = Int 42 /\ parseInt10 "-7" = Int (-7) /\
  parseInt10 "abc" = NaN /\ parseInt10 "" = NaN /\ trim "  a b  " = "a b" /\
  to_string (VArr [VNum (Int 5); VNull; VStr "x"]) = Return "5,,x".
Proof. repeat split; reflexivity. Qed.

(** Numbers: what does not fit 53 bits is rounded, a numeral from [10^21] on
    is printed with an exponent, and fractions are kept. *)
Example number_examples :
  parseInt10 "9007199254740993" = Int 9007199254740992 /\
  to_string (VNum (Int 1000000000000000000000)) = Return "1e+21" /\
  to_string (VNum (Int 123456789012345680000)) = Return "123456789012345680000" /\
  to_string (VNum (Frac 3 1)) = Return "1.5" /\
  to_string (VNum (Frac (-1) 4)) = Return "-0.0625" /\
  to_string (VNum (Inf true)) = Return "-Infinity" /\
  string_to_number " 12.5 " = Frac 25 1 /\
  string_to_number "9007199254740993" = Int 9007199254740992 /\
  string_to_number "0x1F" = Int 31 /\
  string_to_number "1e400" = Inf false /\
  string_to_number "12px" = NaN /\
  number_ltb (Frac 3 1) (Int 2) = true.
Proof. repeat split; reflexivity. Qed.


(** The two handlers on the sample host. *)
Example handlers_examples :
  UploadUrl.getExtensionFromUrl (H := Sample.host) "https://x.com/pic.PNG?x=1" = "png" /\
  UploadUrl.getExtensionFromUrl (H := Sample.host) "https://x.com/pic" = "jpg" /\
  UploadUrl.match_extension "/a.b/c.JpEg" = Some "JpEg" /\
  UploadUrl.match_extension "/a.b/c." = None /\
  Listing.encodeURIComponent "a b/c.png" = "a%20b%2Fc.png" /\
  (UploadUrl.processOne (H := Sample.host)
     (VObj [("url", VStr "https://x.com/pic.PNG?x=1"); ("title", VStr " cat ")])
     Sample.env "https://h" Sample.world).1
  = Return (VObj [("url", VStr "https://x.com/pic.PNG?x=1"); ("success", VBool true);
                  ("src", VStr "https://h/file/big.png"); ("fileName", VStr "cat")]) /\
  (UploadUrl.onRequestPost (H := Sample.host)
     {| query_pwd := None; query_cursor := None;
        header_Authorization := Some "Bearer  s3cret ";
        url_origin := "https://h";
        request_json :=
          Some (VObj [("list", VArr [VObj [("url", VStr "https://x.com/pic.PNG?x=1")];
                                     VObj [("url", VStr "https://x.com/pic")];
                                     VObj [("url", VStr "https://x.com/pic.PNG?x=1")]])]) |}
     Sample.env Sample.world).1
  = Return (UploadUrl.jsonResponse
      (VObj [("results",
              VArr [VObj [("url", VStr "https://x.com/pic.PNG?x=1"); ("success", VBool true);
                          ("src", VStr "https://h/file/big.png");
                          ("fileName", VStr "image_k3x9q2ab.png")];
                    VObj [("url", VStr "https://x.com/pic"); ("success", VBool false);
                          ("error", VStr "fetch failed")];
                    VObj [("url", VStr "https://x.com/pic.PNG?x=1"); ("success", VBool true);
                          ("src", VStr "https://h/file/big.png");
                          ("fileName", VStr "image_k3x9q2ab.png")]])]) 200 []) /\
  option_map fst
    (Listing.onRequestGet (H := Sample.host) 2
       {| query_pwd := Some "wrong"; query_cursor := None; header_Authorization := None;
          url_origin := "https://h"; request_json := None |}
       Sample.env Sample.world)
  = Some (Return (Listing.errResponse (VStr "Unauthorized") 401)).
Proof. repeat split; reflexivity. Qed.

(** ** Selection of the photo variant *)

Section Selection.
Context `{Host}.





Lemma keep_larger_choice (prev cur v : value) :
  keep_larger prev cur = Return v -> v = prev \/ v = cur.
Proof.
  unfold keep_larger. destruct (truthy prev); simpl.
  - destruct (get_prop prev "file_size"); simpl; [|discriminate].
    destruct (or_else _ _); simpl; [|discriminate].
    destruct (get_prop cur "file_size"); simpl; [|discriminate].
    destruct (or_else _ _); simpl; [|discriminate].
    destruct (js_gt _ _) as [[|]|]; simpl; intros [=]; auto.
  - intros [=]; auto.
Qed.

Lemma reduce_from_member (l : list value) (acc v : value) :
  reduce_from keep_larger acc l = Return v -> v ∈ acc :: l.
Proof.
  revert acc. induction l as [|cur l IH]; intros acc; simpl.
  - intros [= ->]. left.
  - destruct (keep_larger acc cur) as [a|] eqn:E; simpl; [|discriminate].
    intros Hr. apply IH in Hr. apply keep_larger_choice in E.
    apply elem_of_cons in Hr. destruct Hr as [->|Hr].
    + destruct E as [->| ->]; [left|right; left].
    + right; right; exact Hr.
Qed.

Lemma getFileIdFromPhoto_selected (result : value) :
  UploadUrl.getFileIdFromPhoto result =
  (let! o := selected result in
   match o with
   | Some largest => get_prop largest "file_id"
   | None => Return VNull
   end).
Proof.
  unfold UploadUrl.getFileIdFromPhoto, selected.
  destruct (truthy result); simpl; [|reflexivity].
  destruct (get_prop result "photo") as [photo|]; simpl; [|reflexivity].
  destruct photo as [| | | | |[|first rest]|]; try reflexivity.
  change (reduce _ (first :: rest)) with (reduce_from keep_larger first rest).
  simpl. destruct (reduce_from keep_larger first rest); reflexivity.
Qed.

Lemma getFileSizeFromPhoto_selected (result : value) :
  UploadUrl.getFileSizeFromPhoto result =
  (let! o := selected result in
   match o with
   | Some largest => size_or_zero largest
   | None => Return (VNum (Int 0))
   end).
Proof.
  unfold UploadUrl.getFileSizeFromPhoto, selected.
  destruct (truthy result); simpl; [|reflexivity].
  destruct (get_prop result "photo") as [photo|]; simpl; [|reflexivity].
  destruct photo as [| | | | |[|first rest]|]; try reflexivity.
  change (reduce _ (first :: rest)) with (reduce_from keep_larger first rest).
  simpl. destruct (reduce_from keep_larger first rest); reflexivity.
Qed.

Lemma selected_member (result largest : value) :
  selected result = Return (Some largest) ->
  exists arr, get_prop result "photo" = Return (VArr arr) /\ largest ∈ arr.
Proof.
  unfold selected. destruct (truthy result); simpl; [|discriminate].
  destruct (get_prop result "photo") as [photo|]; simpl; [|discriminate].
  destruct photo as [| | | | |[|first rest]|]; try discriminate.
  unfold reduce. destruct (reduce_from keep_larger first rest) as [v|] eqn:E;
    simpl; [|discriminate].
  intros [= <-]. exists (first :: rest). split; [reflexivity|].
  eapply reduce_from_member; eauto.
Qed.


End Selection.

(** ** Ingestion of one item *)

Lemma no_write_refl (w : World) : no_write w w.
Proof. split; [reflexivity|]. exists []. split; reflexivity. Qed.

Lemma no_write_trans (w1 w2 w3 : World) :
  no_write w1 w2 -> no_write w2 w3 -> no_write w1 w3.
Proof.
  intros [Hk1 (c1 & Hl1 & Hp1)] [Hk2 (c2 & Hl2 & Hp2)]. split; [congruence|].
  exists (c2 ++ c1). split.
  - rewrite Hl2, Hl1. apply app_assoc.
  - rewrite forallb_app, Hp1, Hp2. reflexivity.
Qed.

Lemma quiet_ret {A} (a : A) : quiet (ret a).
Proof. intros w x w' [= _ <-]. apply no_write_refl. Qed.

Lemma quiet_lift {A} (c : completion A) : quiet (lift c).
Proof. intros w x w' [= _ <-]. apply no_write_refl. Qed.

Lemma quiet_bind {A B} (c : M A) (k : A -> M B) :
  quiet c -> (forall a, quiet (k a)) -> quiet (bindM c k).
Proof.
  intros Hc Hk w b w' Hrun. unfold bindM in Hrun.
  destruct (c w) as [[a|e] w1] eqn:E; [|discriminate].
  eapply no_write_trans; [eapply Hc; exact E|eapply Hk; exact Hrun].
Qed.

Lemma quiet_fetch `{Host} (url : string) (params : list (string * string)) :
  quiet (call_fetch url params).
Proof.
  intros w x w' [= _ <-]. split; [reflexivity|].
  exists [EvFetch url params]. split; reflexivity.
Qed.

Lemma fails_quietly_quiet (c : M value) : quiet c -> fails_quietly c.
Proof. intros Hc w r w' Hrun _. eapply Hc; exact Hrun. Qed.

Lemma fails_quietly_succeeds (c : M value) : succeeds c -> fails_quietly c.
Proof. intros Hc w r w' Hrun Hf. apply Hc in Hrun. congruence. Qed.

Lemma fails_quietly_bind {A} (c : M A) (k : A -> M value) :
  quiet c -> (forall a, fails_quietly (k a)) -> fails_quietly (bindM c k).
Proof.
  intros Hc Hk w r w' Hrun Hf. unfold bindM in Hrun.
  destruct (c w) as [[a|e] w1] eqn:E; [|discriminate].
  eapply no_write_trans; [eapply Hc; exact E|eapply Hk; eassumption].
Qed.

Lemma succeeds_bind {A} (c : M A) (k : A -> M value) :
  (forall a, succeeds (k a)) -> succeeds (bindM c k).
Proof.
  intros Hk w r w' Hrun. unfold bindM in Hrun.
  destruct (c w) as [[a|e] w1]; [|discriminate]. eapply Hk; exact Hrun.
Qed.

Lemma succeeds_ret (v : value) : field v "success" = VBool true -> succeeds (ret v).
Proof. intros Hv w r w' [= <- _]. exact Hv. Qed.

Ltac quiet_step :=
  first [ apply quiet_ret | apply quiet_lift | apply quiet_fetch
        | apply quiet_bind; [|intros ?] ].
(** C1 does not hold of the code: an item that is null or undefined makes
    [processOne] raise where it takes the item apart, before any validation,
    and a put the namespace rejects makes it raise after the remote call
    succeeded; in neither case is there a result object, and the handler
    raises with it. *)
Theorem processOne_raises :
  (forall (H : Host) (env : Env) (baseUrl : string) (w : World),
     UploadUrl.processOne VNull env baseUrl w
     = (Throw (TypeError "Cannot destructure property 'url' of 'item' as it is null."), w) /\
     UploadUrl.processOne VUndefined env baseUrl w
     = (Throw (TypeError "Cannot destructure property 'url' of 'item' as it is undefined."), w)) /\
  (UploadUrl.processOne (H := Sample.host)
     (VObj [("url", VStr "https://x.com/locked.png")]) Sample.env "https://h" Sample.world).1
  = Throw (VObj [("message", VStr "KV PUT failed: 429 Too Many Requests")]) /\
  (UploadUrl.onRequestPost (H := Sample.host)
     {| query_pwd := Some "s3cret"; query_cursor := None; header_Authorization := None;
        url_origin := "https://h";
        request_json := Some (VObj [("list", VArr [VNull])]) |}
     Sample.env Sample.world).1
  = Throw (TypeError "Cannot destructure property 'url' of 'item' as it is null.").
Proof. split; [intros; split; reflexivity|split; reflexivity]. Qed.

(** C7: whenever [processOne] returns a result whose success flag is false,
    whatever the cause, nothing was written for the item: the namespace is
    unchanged and no put was issued. *)
Theorem failed_item_writes_nothing `{Host} (item : value) (env : Env) (baseUrl : string)
    (w w' : World) (r : value) :
  UploadUrl.processOne item env baseUrl w = (Return r, w') ->
  field r "success" = VBool false ->
  kv w' = kv w /\
  exists calls, log w' = calls ++ log w /\
                forallb (fun ev => negb (is_put ev)) calls = true.
Proof.
  revert w r w'. change (fails_quietly (UploadUrl.processOne item env baseUrl)).
  unfold UploadUrl.processOne.
  apply fails_quietly_bind; [apply quiet_lift|intros [imageUrl title]].
  destruct imageUrl; try (apply fails_quietly_quiet, quiet_ret).
  destruct (negb (truthy (VStr s))); [apply fails_quietly_quiet, quiet_ret|].
  do 3 (apply fails_quietly_bind; [apply quiet_lift|intros ?]).
  apply fails_quietly_bind; [apply quiet_fetch|intros [e|[data|]]].
  - apply fails_quietly_quiet. repeat quiet_step.
  - apply fails_quietly_bind; [apply quiet_lift|intros ok].
    apply fails_quietly_bind.
    { destruct (negb (truthy ok)); repeat quiet_step. }
    intros [|].
    + apply fails_quietly_quiet. repeat quiet_step.
    + apply fails_quietly_bind; [apply quiet_lift|intros result].
      apply fails_quietly_bind; [apply quiet_lift|intros fileId].
      destruct (negb (truthy fileId)); [apply fails_quietly_quiet, quiet_ret|].
      apply fails_quietly_succeeds.
      do 5 (apply succeeds_bind; intros ?).
      apply succeeds_ret. reflexivity.
  - apply fails_quietly_quiet, quiet_ret.
Qed.

(** The item [{url: "not-a-url"}], which the bot API rejects. *)
Lemma failed_item_writes_nothing_witness :
  (UploadUrl.processOne (H := Sample.host) (VObj [("url", VStr "not-a-url")])
     Sample.env "https://h" Sample.world).1
  = Return (VObj [("url", VStr "not-a-url"); ("success", VBool false);
                  ("error", VStr "Bad Request: wrong HTTP URL specified")]) /\
  kv (UploadUrl.processOne (H := Sample.host) (VObj [("url", VStr "not-a-url")])
        Sample.env "https://h" Sample.world).2 = kv Sample.world.
Proof.
  split; [reflexivity|].
  exact (proj1 (failed_item_writes_nothing (H := Sample.host)
           (VObj [("url", VStr "not-a-url")]) Sample.env "https://h" Sample.world
           _ _ eq_refl eq_refl)).
Defined.




(** ** The record normaliser *)

Section Normalizer.
Context `{Host}.

Lemma get_prop_bag (metadata : value) (k : string) :
  get_prop (if truthy metadata then metadata else VObj []) k = Return (field metadata k).
Proof.
  destruct metadata as [| |[|]|[|z|m e|b]|s| |]; simpl; try reflexivity.
  - destruct (negb (Z.eqb z 0)); reflexivity.
  - destruct (negb (Z.eqb m 0)); reflexivity.
  - destruct (negb (String.eqb s "")); reflexivity.
Qed.

Lemma get_prop_field (v : value) (k : string) :
  nullish v = false -> get_prop v k = Return (field v k).
Proof. destruct v; simpl; intros; try discriminate; reflexivity. Qed.

Lemma get_prop_nullish (v : value) (k : string) :
  nullish v = true -> (exists e, get_prop v k = Throw e) /\ field v k = VUndefined.
Proof. destruct v; simpl; intros; try discriminate; eauto. Qed.

Lemma extra_payload (valueText : option string) :
  match valueText with
  | Some text =>
      if truthy (VStr text) && truthy (VStr (trim text))
      then match JSON_parse text with
           | Some parsed => parsed
           | None => VObj []
           end
      else VObj []
  | None => VObj []
  end = payload valueText.
Proof.
  destruct valueText as [text|]; [|reflexivity]. unfold payload. simpl.
  destruct (String.eqb text ""), (String.eqb (trim text) ""); reflexivity.
Qed.

(** The item in terms of the metadata bag and of the payload. *)
Lemma buildItem_unfold (origin keyName : string) (metadata : value)
    (valueText : option string) :
  Listing.buildItem origin keyName metadata valueText =
  (let extra := payload valueText in
   let! fileName :=
     or_else (field metadata "fileName")
       (let! ef := get_prop extra "fileName" in or_else ef (Return (VStr keyName))) in
   let! uploadTime :=
     if negb (nullish (field metadata "TimeStamp")) then Return (field metadata "TimeStamp") else
     let! eu := get_prop extra "uploadTime" in
     if negb (nullish eu) then Return eu else
     let! et := get_prop extra "TimeStamp" in
     if negb (nullish et) then Return et else Return VNull in
   let! coerced := coerce_time uploadTime in
   Return (VObj ([("key", VStr keyName);
                  ("url", VStr (origin +:+ "/file/" +:+ Listing.encodeURIComponent keyName));
                  ("fileName", fileName); ("uploadTime", coerced)]
                 ++ (if truthy (field metadata "storageType")
                     then [("storageType", field metadata "storageType")] else [])))).
Proof.
  unfold Listing.buildItem. cbv zeta. rewrite extra_payload, !get_prop_bag.
  cbn [bindC].
  destruct (or_else _ _) as [fileName|]; [|reflexivity]. cbn [bindC].
  match goal with |- bindC ?c _ = bindC ?c _ => destruct c as [uploadTime|] end;
    [|reflexivity].
  cbn [bindC]. destruct uploadTime; reflexivity.
Qed.



(** The normaliser raises when it has to read a field of a payload that is
    null. *)
Lemma buildItem_null_payload (origin keyName : string) (metadata : value)
    (valueText : option string) :
  nullish (payload valueText) = true ->
  truthy (field metadata "fileName") = false \/
    nullish (field metadata "TimeStamp") = true ->
  exists e, Listing.buildItem origin keyName metadata valueText = Throw e.
Proof.
  intros En Hneed. rewrite buildItem_unfold. cbv zeta.
  set (extra := payload valueText) in *.
  destruct (get_prop_nullish extra "fileName" En) as [[e1 E1] _].
  destruct (get_prop_nullish extra "uploadTime" En) as [[e2 E2] _].
  rewrite E1, E2. unfold or_else.
  destruct (truthy (field metadata "fileName")) eqn:Hf; cbn [bindC]; [|eauto].
  destruct Hneed as [Hn|Hn]; [discriminate Hn|]. rewrite Hn. cbn [negb bindC]. eauto.
Qed.

End Normalizer.







(** The other two cases of the file name, and the upload time of a payload
    alone, on the sample host. *)
Example buildItem_examples :
  (let! item := Listing.buildItem (H := Sample.host) "https://h" "k" VNull
                  (Some Sample.text_fileName_b) in
   Return (field item "fileName")) = Return (VStr "b") /\
  (let! item := Listing.buildItem (H := Sample.host) "https://h" "k" VNull None in
   Return (field item "fileName")) = Return (VStr "k") /\
  (let! item := Listing.buildItem (H := Sample.host) "https://h" "k" VNull
                  (Some Sample.text_times) in
   Return (field item "uploadTime")) = Return (VNum (Int 9)) /\
  (let! item := Listing.buildItem (H := Sample.host) "https://h" "k" VNull
                  (Some Sample.text_legacy) in
   Return (field item "uploadTime")) = Return (VNum (Int 12)) /\
  Listing.buildItem (H := Sample.host) "https://h" "k" VNull (Some "null")
  = Throw (TypeError "Cannot read properties of null (reading 'fileName')").
Proof. repeat split; reflexivity. Qed.

(** C8, as it stands, fails: with a value text that is not JSON, the
    normaliser raises when the metadata TimeStamp is an object that cannot be
    converted to a string.  Here its own toString property is the number 1:
    parseInt asks for the string of its argument, toString is not callable,
    valueOf answers the object itself, and the conversion throws. *)
Lemma malformed_payload_can_raise :
  JSON_parse (Host := Sample.host) "{" = None /\
  Listing.buildItem (H := Sample.host) "https://h" "k"
    (VObj [("TimeStamp", VObj [("toString", VNum (Int 1))])]) (Some "{")
  = Throw (TypeError "Cannot convert object to primitive value").
Proof. split; reflexivity. Qed.

(** C8 (amended): for every key, every metadata whose TimeStamp can be coerced
    and every value text that is not JSON, the normaliser surfaces no parse
    error and does not raise: the text counts as no extra data (the outcome is
    that of an absent value), and the item carries the metadata-derived fields
    only, the file name falling back to the key and the upload time to null
    when the metadata lacks them. *)
Theorem malformed_payload_ignored `{Host} (origin keyName text : string)
    (metadata t : value) :
  JSON_parse text = None ->
  coerce_time (field metadata "TimeStamp") = Return t ->
  Listing.buildItem origin keyName metadata (Some text)
    = Listing.buildItem origin keyName metadata None /\
  Listing.buildItem origin keyName metadata (Some text)
    = Return (VObj ([("key", VStr keyName);
                     ("url", VStr (origin +:+ "/file/" +:+ Listing.encodeURIComponent keyName));
                     ("fileName", if truthy (field metadata "fileName")
                                  then field metadata "fileName" else VStr keyName);
                     ("uploadTime", t)]
                    ++ (if truthy (field metadata "storageType")
                        then [("storageType", field metadata "storageType")] else []))) /\
  (nullish (field metadata "TimeStamp") = true -> t = VNull).
Proof.
  intros Hparse Ht.
  assert (Hp : payload (Some text) = VObj []).
  { unfold payload. rewrite Hparse. destruct (_ || _); reflexivity. }
  rewrite !buildItem_unfold. cbv zeta. rewrite Hp. change (payload None) with (VObj []).
  assert (Hnull : nullish (field metadata "TimeStamp") = true -> t = VNull).
  { destruct (field metadata "TimeStamp"); try discriminate; cbn in Ht; congruence. }
  split; [reflexivity|]. split; [|exact Hnull].
  cbn [get_prop assoc bindC]. unfold or_else. cbn [truthy bindC nullish negb].
  destruct (nullish (field metadata "TimeStamp")) eqn:En; cbn [negb bindC].
  - rewrite (Hnull eq_refl). cbn [coerce_time bindC].
    destruct (truthy (field metadata "fileName")); reflexivity.
  - destruct (truthy (field metadata "fileName")); cbn [bindC]; rewrite Ht; reflexivity.
Qed.

Lemma malformed_payload_ignored_witness :
  Listing.buildItem (H := Sample.host) "https://h" "k"
    (VObj [("fileName", VStr "a"); ("TimeStamp", VStr "12px")]) (Some "{")
  = Return (VObj [("key", VStr "k"); ("url", VStr "https://h/file/k");
                  ("fileName", VStr "a"); ("uploadTime", VNum (Int 12))]).
Proof.
  exact (proj1 (proj2 (malformed_payload_ignored (H := Sample.host) "https://h" "k" "{"
           (VObj [("fileName", VStr "a"); ("TimeStamp", VStr "12px")])
           (VNum (Int 12)) eq_refl eq_refl))).
Defined.




(** ** The shared-secret gate *)

Lemma startsWith_split (p s : string) :
  startsWith p s = true -> s = p +:+ slice_from (String.length p) s.
Proof.
  revert s. induction p as [|a p IH]; intros s; simpl; [reflexivity|].
  destruct s as [|b s]; [discriminate|]. intros Hp.
  apply andb_true_iff in Hp. destruct Hp as [Hab Hp].
  apply Ascii.eqb_eq in Hab. subst b.
  change (String a s = String a (p +:+ slice_from (String.length p) s)).
  f_equal. apply IH, Hp.
Qed.

Lemma bearer_credential (request : Request) :
  (query_pwd request = None \/ query_pwd request = Some "") ->
  (forall rest, header_Authorization request = Some ("Bearer " +:+ rest) ->
                UploadUrl.getPassword request = Some (trim rest)) /\
  ((forall rest, header_Authorization request <> Some ("Bearer " +:+ rest)) ->
   UploadUrl.getPassword request = None).
Proof.
  intros Hpwd. unfold UploadUrl.getPassword.
  assert (Hb : forall bearer : option string,
            match query_pwd request with
            | Some pwd => if negb (String.eqb pwd "") then Some pwd else bearer
            | None => bearer
            end = bearer).
  { intros bearer. destruct Hpwd as [-> | ->]; reflexivity. }
  cbv zeta. rewrite Hb. split.
  - intros rest ->. reflexivity.
  - intros Hno. destruct (header_Authorization request) as [auth|]; [|reflexivity].
    destruct (startsWith "Bearer " auth) eqn:Es; [|rewrite andb_false_r; reflexivity].
    exfalso. apply (Hno (slice_from 7 auth)). f_equal.
    exact (startsWith_split "Bearer " auth Es).
Qed.

Lemma checkAuth_authorized (request : Request) (env : Env) :
  UploadUrl.checkAuth request env = true <->
  authorized (BASIC_PASS env) (UploadUrl.getPassword request).
Proof.
  unfold UploadUrl.checkAuth, authorized.
  destruct (BASIC_PASS env) as [pass|]; [|tauto].
  destruct (String.eqb_spec pass "") as [->|Hne]; [tauto|].
  destruct (UploadUrl.getPassword request) as [pwd|];
    [destruct (String.eqb_spec pwd pass) as [->|Hd]|];
    split; intros Hx; try reflexivity; try discriminate;
    try (right; right; reflexivity);
    destruct Hx as [?|[?|?]]; congruence.
Qed.

Section Gate.
Context `{Host}.

Lemma onRequestPost_denied (request : Request) (env : Env) (w : World) :
  UploadUrl.checkAuth request env = false ->
  UploadUrl.onRequestPost request env w
  = (Return (UploadUrl.errResponse "Unauthorized" 401), w).
Proof. intros Hd. unfold UploadUrl.onRequestPost. rewrite Hd. reflexivity. Qed.

Lemma onRequestPost_granted (request : Request) (env : Env) (w w' : World)
    (response : Response) :
  UploadUrl.checkAuth request env = true ->
  UploadUrl.onRequestPost request env w = (Return response, w') ->
  status response = 500 \/ status response = 400 \/ status response = 200.
Proof.
  intros Hg. unfold UploadUrl.onRequestPost. rewrite Hg. cbn [negb].
  destruct (_ || _); [intros [= <- _]; auto|].
  destruct (request_json request) as [json|]; [|intros [= <- _]; auto].
  unfold bindM, lift, ret.
  destruct (if nullish json then _ else _) as [lst|]; [|discriminate].
  destruct lst as [| | | | |[|first rest]|]; try (intros [= <- _]; auto).
  destruct (UploadUrl.process_list _ _ _ _ _) as [[results|] w1]; [|discriminate].
  intros [= <- _]; auto.
Qed.

Lemma listing_denied_authorized (request : Request) (env : Env) :
  listing_denied request env = false <->
  authorized (BASIC_PASS env) (query_pwd request).
Proof.
  unfold listing_denied, authorized.
  destruct (BASIC_PASS env) as [pass|]; [|tauto].
  destruct (String.eqb_spec pass "") as [->|Hne]; [tauto|]. cbn [negb].
  destruct (bool_decide_reflect (query_pwd request = Some pass)) as [Heq|Hd];
    cbn [negb]; split; intros Hx; try reflexivity; try discriminate;
    try (right; right; exact Heq);
    destruct Hx as [?|[?|?]]; congruence.
Qed.

Lemma list_all_status (fuel : nat) (request : Request) (w w' : World)
    (response : Response) :
  Listing.list_all fuel request w = Some (Return response, w') ->
  status response = 200.
Proof.
  unfold Listing.list_all.
  destruct (Listing.listAllKeys _ _ _) as [[[keyNames|] w1]|]; try discriminate.
  unfold bindM, lift, ret.
  destruct (Listing.fetchAllWithMetadata _ _) as [[fetched|] w2]; [|discriminate].
  destruct (Listing.map_items _ _) as [items|]; [|discriminate].
  intros [= <- _]. reflexivity.
Qed.

Lemma onRequestGet_granted (fuel : nat) (request : Request) (env : Env) (w w' : World)
    (response : Response) :
  listing_denied request env = false ->
  Listing.onRequestGet fuel request env w = Some (Return response, w') ->
  status response = 500 \/ status response = 200.
Proof.
  intros Hg. unfold Listing.onRequestGet. cbv zeta.
  change (match BASIC_PASS env with
          | Some pass => _
          | None => false
          end) with (listing_denied request env).
  rewrite Hg.
  destruct (negb (img_url env)); [intros [= <- _]; auto|].
  destruct (Listing.list_all fuel request w) as [[[resp|e] w1]|] eqn:El; [| |discriminate].
  - intros [= <- _]. right. eapply list_all_status, El.
  - destruct (get_prop e "message") as [msg|]; cbn [bindC]; [|discriminate].
    destruct (or_else _ _); cbn [bindC]; [|discriminate].
    intros [= <- _]. auto.
Qed.

Lemma onRequestGet_denied (fuel : nat) (request : Request) (env : Env) (w : World) :
  listing_denied request env = true ->
  Listing.onRequestGet fuel request env w
  = Some (Return (Listing.errResponse (VStr "Unauthorized") 401), w).
Proof.
  intros Hd. unfold Listing.onRequestGet. cbv zeta.
  change (match BASIC_PASS env with
          | Some pass => _
          | None => false
          end) with (listing_denied request env).
  rewrite Hd. reflexivity.
Qed.

End Gate.

(** C3: access to the listing and to the ingestion handler is granted exactly
    when no secret is configured or the presented credential is the secret;
    for ingestion the credential is the pwd parameter when it is not empty,
    else what follows the Bearer prefix of the Authorization header, trimmed;
    a mismatch is answered 401 Unauthorized before anything else happens. *)
Theorem shared_secret_gate `{Host} (request : Request) (env : Env) (w : World)
    (fuel : nat) :
  (forall pwd, query_pwd request = Some pwd -> pwd <> "" ->
               UploadUrl.getPassword request = Some pwd) /\
  (query_pwd request = None \/ query_pwd request = Some "" ->
   (forall rest, header_Authorization request = Some ("Bearer " +:+ rest) ->
                 UploadUrl.getPassword request = Some (trim rest)) /\
   ((forall rest, header_Authorization request <> Some ("Bearer " +:+ rest)) ->
    UploadUrl.getPassword request = None)) /\
  (~ authorized (BASIC_PASS env) (UploadUrl.getPassword request) ->
   UploadUrl.onRequestPost request env w
   = (Return (UploadUrl.errResponse "Unauthorized" 401), w)) /\
  (authorized (BASIC_PASS env) (UploadUrl.getPassword request) ->
   forall response w', UploadUrl.onRequestPost request env w = (Return response, w') ->
                       status response <> 401) /\
  (~ authorized (BASIC_PASS env) (query_pwd request) ->
   Listing.onRequestGet fuel request env w
   = Some (Return (Listing.errResponse (VStr "Unauthorized") 401), w)) /\
  (authorized (BASIC_PASS env) (query_pwd request) ->
   forall response w', Listing.onRequestGet fuel request env w = Some (Return response, w') ->
                       status response <> 401).
Proof.
  repeat split.
  - intros pwd Hp Hne. unfold UploadUrl.getPassword. rewrite Hp.
    destruct (String.eqb_spec pwd ""); [contradiction|reflexivity].
  - apply bearer_credential; assumption.
  - apply bearer_credential; assumption.
  - intros Hno. apply onRequestPost_denied.
    destruct (UploadUrl.checkAuth request env) eqn:E; [|reflexivity].
    exfalso. apply Hno, checkAuth_authorized, E.
  - intros Hyes response w' Hrun.
    apply checkAuth_authorized in Hyes.
    destruct (onRequestPost_granted _ _ _ _ _ Hyes Hrun) as [->|[->| ->]]; discriminate.
  - intros Hno. apply onRequestGet_denied.
    destruct (listing_denied request env) eqn:E; [reflexivity|].
    exfalso. apply Hno, listing_denied_authorized, E.
  - intros Hyes response w' Hrun.
    apply listing_denied_authorized in Hyes.
    destruct (onRequestGet_granted _ _ _ _ _ _ Hyes Hrun) as [->| ->]; discriminate.
Qed.

(** ** The pagination walker *)

Section Walker.
Context `{Host}.

Lemma listAllKeys_loop_paged (w w' : World) (cur : value) (pages : list (list string)) :
  paged w cur pages w' ->
  forall (fuel : nat) (names : list string),
    (length pages <= fuel)%nat ->
    Listing.listAllKeys_loop fuel names cur w = Some (Return (names ++ concat pages), w').
Proof.
  induction 1 as [w cur r Hlist Hsize Hdone | w cur r pages w' Hlist Hsize Hmore Hcur _ IH];
    intros fuel names Hfuel.
  - destruct fuel as [|fuel]; [simpl in Hfuel; lia|].
    simpl. unfold call_list. rewrite Hlist, Hdone. simpl.
    rewrite app_nil_r. reflexivity.
  - destruct fuel as [|fuel]; [simpl in Hfuel; lia|].
    simpl. unfold call_list. rewrite Hlist, Hmore, Hcur.
    rewrite IH by (simpl in Hfuel; lia). rewrite <- app_assoc. reflexivity.
Qed.

End Walker.

(** C6: when the namespace holds K keys and hands them out over any number
    of pages, each call returning at most the page size together with the
    completion signal or a cursor, the walker started without a cursor
    returns exactly those K names, in the order of the pages, and stops at the
    completion signal. *)
Theorem listAllKeys_complete `{Host} (w w' : World) (pages : list (list string)) :
  paged w VUndefined pages w' ->
  concat pages ≡ₚ (map_to_list (kv w)).*1 ->
  exists names,
    (forall fuel, (length pages <= fuel)%nat ->
                  Listing.listAllKeys fuel VUndefined w = Some (Return names, w')) /\
    names = concat pages /\
    length names = size (kv w) /\
    NoDup names /\
    (forall key, key ∈ names <-> is_Some (kv w !! key)).
Proof.
  intros Hpaged Hkeys. exists (concat pages). repeat split.
  - intros fuel Hfuel. unfold Listing.listAllKeys.
    exact (listAllKeys_loop_paged _ _ _ _ Hpaged fuel [] Hfuel).
  - rewrite Hkeys, length_fmap. apply length_map_to_list.
  - rewrite Hkeys. apply NoDup_fst_map_to_list.
  - rewrite Hkeys. intros Hin. apply list_elem_of_fmap in Hin.
    destruct Hin as [[k v] [-> Hin]]. apply elem_of_map_to_list in Hin. eauto.
  - intros [v Hv]. rewrite Hkeys. apply list_elem_of_fmap.
    exists (key, v). split; [reflexivity|]. apply elem_of_map_to_list. exact Hv.
Qed.

Lemma sample_pages :
  paged (H := Sample.host) Sample.world VUndefined [["a.png"; "b.jpg"]; ["c.gif"]]
    (emit (EvList Listing.LIST_PAGE_SIZE (VStr "p2"))
       (emit (EvList Listing.LIST_PAGE_SIZE VUndefined) Sample.world)).
Proof.
  eapply (paged_more (H := Sample.host) Sample.world VUndefined
            {| keys := ["a.png"; "b.jpg"]; list_complete := false; cursor := VStr "p2" |});
    try reflexivity.
  - vm_compute. discriminate.
  - eapply (paged_last (H := Sample.host) _ (VStr "p2")
              {| keys := ["c.gif"]; list_complete := true; cursor := VUndefined |});
      try reflexivity.
    vm_compute. discriminate.
Qed.

Lemma sample_keys :
  concat [["a.png"; "b.jpg"]; ["c.gif"]] ≡ₚ (map_to_list (kv Sample.world)).*1.
Proof.
  apply NoDup_Permutation.
  - simpl. compute_done.
  - apply NoDup_fst_map_to_list.
  - intros key. rewrite list_elem_of_fmap. split.
    + intros Hin. simpl in Hin.
      assert (is_Some (kv Sample.world !! key)) as [v Hv].
      { unfold Sample.world; simpl.
        repeat (apply elem_of_cons in Hin; destruct Hin as [->|Hin]);
          [..|inversion Hin]; simplify_map_eq; eauto. }
      exists (key, v). split; [reflexivity|]. apply elem_of_map_to_list, Hv.
    + intros [[k v] [-> Hin]]. apply elem_of_map_to_list in Hin.
      unfold Sample.world in Hin; simpl in Hin.
      repeat (apply lookup_insert_Some in Hin; destruct Hin as [[<- _]|[_ Hin]];
              [set_solver|]).
      simplify_map_eq.
Qed.

(** Three keys over two pages. *)
Lemma listAllKeys_complete_witness :
  exists names,
    Listing.listAllKeys (H := Sample.host) 2 VUndefined Sample.world
    = Some (Return names,
            emit (EvList Listing.LIST_PAGE_SIZE (VStr "p2"))
              (emit (EvList Listing.LIST_PAGE_SIZE VUndefined) Sample.world)) /\
    names = ["a.png"; "b.jpg"; "c.gif"] /\ length names = size (kv Sample.world).
Proof.
  destruct (listAllKeys_complete (H := Sample.host) _ _ _ sample_pages sample_keys)
    as (names & Hrun & Hnames & Hlen & _).
  exists names. split; [apply Hrun; simpl; lia|]. split; [exact Hnames|exact Hlen].
Defined.

(** * Further properties *)

(** ** The extension of a URL *)

Lemma append_empty_r (s : string) : s +:+ "" = s.
Proof.
  induction s as [|c s IH]; [reflexivity|].
  change (String c (s +:+ "") = String c s). f_equal. exact IH.
Qed.

Lemma append_cons (c : ascii) (a b : string) : String c a +:+ b = String c (a +:+ b).
Proof. reflexivity. Qed.

Lemma append_associative (a b c : string) : (a +:+ b) +:+ c = a +:+ (b +:+ c).
Proof.
  induction a as [|x a IH]; [reflexivity|].
  rewrite !append_cons. f_equal. exact IH.
Qed.

Lemma rev_string_acc (s acc : string) : rev_string acc s = rev_string "" s +:+ acc.
Proof.
  revert acc. induction s as [|c s IH]; intros acc; [reflexivity|].
  cbn [rev_string]. rewrite (IH (String c acc)), (IH (String c "")).
  rewrite append_associative. reflexivity.
Qed.

Lemma rev_string_app (a b acc : string) :
  rev_string acc (a +:+ b) = rev_string (rev_string acc a) b.
Proof.
  revert acc. induction a as [|c a IH]; intros acc; [reflexivity|].
  rewrite append_cons. cbn [rev_string]. apply IH.
Qed.

Lemma rev_string_involutive (s : string) : rev_string "" (rev_string "" s) = s.
Proof.
  induction s as [|c s IH]; [reflexivity|].
  cbn [rev_string]. rewrite (rev_string_acc s), rev_string_app, IH. reflexivity.
Qed.

Lemma all_chars_app (P : ascii -> bool) (a b : string) :
  all_chars P (a +:+ b) = all_chars P a && all_chars P b.
Proof.
  induction a as [|c a IH]; [reflexivity|].
  rewrite append_cons. cbn [all_chars]. rewrite IH, andb_assoc. reflexivity.
Qed.

Lemma ext_scan_suffix (e tail acc : string) :
  all_chars is_alnum e = true ->
  UploadUrl.ext_scan (rev_string tail e) acc = UploadUrl.ext_scan tail (e +:+ acc).
Proof.
  revert tail acc. induction e as [|c e IH]; intros tail acc He; [reflexivity|].
  cbn [all_chars] in He. apply andb_true_iff in He. destruct He as [Hc He].
  cbn [rev_string]. rewrite IH by exact He. cbn [UploadUrl.ext_scan]. rewrite Hc.
  reflexivity.
Qed.

Lemma ext_scan_sound (rev_path acc e : string) :
  UploadUrl.ext_scan rev_path acc = Some e ->
  exists s rest,
    e = s +:+ acc /\ e <> "" /\ all_chars is_alnum s = true /\
    rev_path = rev_string (String "." rest) s.
Proof.
  revert acc. induction rev_path as [|c r IH]; intros acc; cbn [UploadUrl.ext_scan];
    [discriminate|].
  destruct (is_alnum c) eqn:Hc.
  - intros Hscan. destruct (IH _ Hscan) as (s & rest & He & Hne & Hs & Hr).
    exists (s +:+ String c ""), rest. repeat split.
    + rewrite He, append_associative. reflexivity.
    + exact Hne.
    + rewrite all_chars_app, Hs. cbn [all_chars]. rewrite Hc. reflexivity.
    + rewrite rev_string_app, <- Hr. reflexivity.
  - destruct (Ascii.eqb_spec c ".") as [->|]; [|discriminate].
    destruct (String.eqb_spec acc "") as [|Hne]; [discriminate|].
    intros [= <-]. exists "", r. repeat split; auto.
Qed.

Lemma match_extension_sound (path e : string) :
  UploadUrl.match_extension path = Some e ->
  e <> "" /\ all_chars is_alnum e = true /\ exists stem, path = stem +:+ "." +:+ e.
Proof.
  unfold UploadUrl.match_extension.
  intros Hscan. destruct (ext_scan_sound _ _ _ Hscan) as (s & rest & He & Hne & Hs & Hr).
  rewrite append_empty_r in He. subst s. repeat split; [exact Hne|exact Hs|].
  exists (rev_string "" rest).
  rewrite <- (rev_string_involutive path), Hr.
  rewrite (rev_string_acc e), rev_string_app, rev_string_involutive.
  cbn [rev_string]. rewrite rev_string_acc. reflexivity.
Qed.

Lemma match_extension_complete (stem e : string) :
  e <> "" -> all_chars is_alnum e = true ->
  UploadUrl.match_extension (stem +:+ "." +:+ e) = Some e.
Proof.
  unfold UploadUrl.match_extension. intros Hne He.
  rewrite rev_string_app. change ("." +:+ e) with (String "." e). cbn [rev_string].
  rewrite ext_scan_suffix by exact He. cbn [UploadUrl.ext_scan].
  rewrite append_empty_r.
  destruct (String.eqb_spec e "") as [|_]; [contradiction|reflexivity].
Qed.

(** X1: the regular expression of [getExtensionFromUrl] captures [e] exactly
    when the path ends with a dot followed by [e] and [e] is a non-empty run
    of ASCII letters and digits. *)
Theorem match_extension_spec (path e : string) :
  UploadUrl.match_extension path = Some e <->
  e <> "" /\ all_chars is_alnum e = true /\ exists stem, path = stem +:+ "." +:+ e.
Proof.
  split.
  - apply match_extension_sound.
  - intros (Hne & He & stem & ->). apply match_extension_complete; assumption.
Qed.

Lemma lower_alnum (c : ascii) : is_alnum c = true -> is_lower_alnum (lower c) = true.
Proof.
  destruct c as [[] [] [] [] [] [] [] []]; intros Hc; try reflexivity; discriminate Hc.
Qed.

Lemma toLowerCase_alnum (s : string) :
  all_chars is_alnum s = true -> all_chars is_lower_alnum (toLowerCase s) = true.
Proof.
  induction s as [|c s IH]; [reflexivity|]. cbn [all_chars toLowerCase map_string].
  intros Hs. apply andb_true_iff in Hs. destruct Hs as [Hc Hs].
  rewrite (lower_alnum c Hc). exact (IH Hs).
Qed.

Lemma toLowerCase_empty (s : string) : toLowerCase s = "" -> s = "".
Proof. destruct s; [reflexivity|discriminate]. Qed.

(** X2: whatever the URL, parsable or not, the extension is a non-empty
    string of lower-case ASCII letters and digits.  When the URL parses and
    its path ends with a dot followed by a non-empty run of letters and
    digits, the extension is that run in lower case; in every other case it
    is jpg. *)
Theorem getExtensionFromUrl_safe `{Host} (urlStr : string) :
  UploadUrl.getExtensionFromUrl urlStr <> "" /\
  all_chars is_lower_alnum (UploadUrl.getExtensionFromUrl urlStr) = true /\
  (forall stem e,
     URL_pathname urlStr = Some (stem +:+ "." +:+ e) ->
     e <> "" -> all_chars is_alnum e = true ->
     UploadUrl.getExtensionFromUrl urlStr = toLowerCase e) /\
  ((forall stem e,
      URL_pathname urlStr = Some (stem +:+ "." +:+ e) ->
      e <> "" -> all_chars is_alnum e = true -> False) ->
   UploadUrl.getExtensionFromUrl urlStr = "jpg").
Proof.
  unfold UploadUrl.getExtensionFromUrl.
  destruct (URL_pathname urlStr) as [path|];
    [|repeat split; auto; discriminate].
  destruct (UploadUrl.match_extension path) as [m1|] eqn:Hm.
  - apply match_extension_sound in Hm. destruct Hm as (Hne & He & stem & ->).
    repeat split.
    + intros Hl. apply toLowerCase_empty in Hl. contradiction.
    + apply toLowerCase_alnum, He.
    + intros stem' e' [= Hpath] Hne' He'.
      pose proof (match_extension_complete stem m1 Hne He) as H1.
      rewrite Hpath, (match_extension_complete stem' e' Hne' He') in H1.
      congruence.
    + intros Hnone. destruct (Hnone stem m1 eq_refl Hne He).
  - repeat split; auto; try discriminate.
    intros stem e [= ->] Hne He.
    rewrite (match_extension_complete stem e Hne He) in Hm. discriminate.
Qed.

(** The extension of a path with an upper-case suffix. *)
Lemma getExtensionFromUrl_safe_witness :
  UploadUrl.getExtensionFromUrl (H := Sample.host) "https://x.com/pic.PNG?x=1"
  = toLowerCase "PNG".
Proof.
  exact (proj1 (proj2 (proj2 (getExtensionFromUrl_safe (H := Sample.host)
           "https://x.com/pic.PNG?x=1"))) "/pic" "PNG" eq_refl
           ltac:(discriminate) eq_refl).
Defined.

(** ** One item, whatever the outcome *)

Ltac run_cases :=
  repeat (cbv beta iota zeta;
          match goal with
          | |- context [match ?x with _ => _ end] =>
              lazymatch x with
              | context [match _ with _ => _ end] => fail
              | _ => destruct x eqn:?
              end
          end).

Ltac run_processOne :=
  unfold UploadUrl.processOne, UploadUrl.randomFileName, bindM, lift, ret, call_fetch,
    call_put, call_Date_now, call_Math_random_id, emit;
  run_cases.

Lemma destructure_item_fields (item u t : value) :
  UploadUrl.destructure_item item = Return (u, t) ->
  u = field item "url" /\ t = field item "title" /\ nullish item = false.
Proof.
  destruct item; cbn; intros Hd; try discriminate; injection Hd as <- <-; auto.
Qed.

Lemma or_else_truthy (a d r : value) :
  truthy d = true -> or_else a (Return d) = Return r -> truthy r = true.
Proof.
  unfold or_else. intros Hd. destruct (truthy a) eqn:Ha; intros [= <-]; assumption.
Qed.

Lemma length_slice_to (n : nat) (s : string) : (String.length (slice_to n s) <= n)%nat.
Proof.
  revert s. induction n as [|n IH]; intros [|c s]; cbn; try lia.
  specialize (IH s). lia.
Qed.

Lemma caption_bound (c : completion string) (caption : string) :
  (let! s := c in Return (slice_to 1024 s)) = Return caption ->
  (String.length caption <= 1024)%nat.
Proof.
  destruct c as [s|]; cbn [bindC]; [|discriminate].
  intros E. assert (caption = slice_to 1024 s) as -> by congruence.
  apply length_slice_to.
Qed.

(** X3: whatever the item and however the call ends (a result or a raise),
    [processOne] makes at most one remote call and at most one write, the
    write comes after the remote call and only when the namespace is bound,
    it stores the empty text, and no other key of the namespace changes. *)
Theorem processOne_protocol `{Host} (item : value) (env : Env) (baseUrl : string)
    (w w' : World) (x : completion value) :
  UploadUrl.processOne item env baseUrl w = (x, w') ->
  (log w' = log w /\ kv w' = kv w) \/
  (exists u b, log w' = EvFetch u b :: log w /\ kv w' = kv w) \/
  (exists u b key md,
     log w' = EvPut key "" md :: EvFetch u b :: log w /\
     img_url env = true /\
     (kv w' = kv w \/ kv w' = <[key := ("", md)]> (kv w))).
Proof.
  run_processOne.
  all: intros [= <- <-]; cbn [log kv].
  all: first [ left; split; reflexivity
             | right; left; eexists _, _; split; reflexivity
             | right; right; eexists _, _, _, _;
               split; [reflexivity|split; [first [assumption|reflexivity]|auto]] ].
Qed.

Lemma caption_cut (c : completion string) (caption : string) :
  (let! s := c in Return (slice_to 1024 s)) = Return caption ->
  exists t, c = Return t /\ caption = slice_to 1024 t.
Proof.
  destruct c as [s|]; cbn [bindC]; [|discriminate].
  intros E. exists s. split; [reflexivity|congruence].
Qed.

(** X4: the one remote call of [processOne] is a sendPhoto request to the
    bot of the configured token, with exactly the parameters chat_id, photo
    and caption: the photo is the trimmed url of the item, and the caption is
    the string of the title cut to its first 1024 code units, or the empty
    string when the title is null or undefined. *)
Theorem processOne_request `{Host} (item : value) (env : Env) (baseUrl : string)
    (w w' : World) (x : completion value) (calls : list event)
    (url : string) (params : list (string * string)) :
  UploadUrl.processOne item env baseUrl w = (x, w') ->
  log w' = calls ++ log w ->
  EvFetch url params ∈ calls ->
  exists token chat u caption,
    to_string (var (TG_Bot_Token env)) = Return token /\
    to_string (var (TG_Chat_ID env)) = Return chat /\
    field item "url" = VStr u /\
    url = "https://api.telegram.org/bot" +:+ token +:+ "/sendPhoto" /\
    params = [("chat_id", chat); ("photo", trim u); ("caption", caption)] /\
    (String.length caption <= 1024)%nat /\
    (nullish (field item "title") = true -> caption = "") /\
    (nullish (field item "title") = false ->
     exists t, to_string (field item "title") = Return t /\ caption = slice_to 1024 t).
Proof.
  run_processOne.
  all: intros [= <- <-]; cbn [log kv]; intros Hlog Hin.
  all: try (apply (app_inv_tail (log w) [] calls) in Hlog; subst calls; inversion Hin).
  all: try (apply (app_inv_tail (log w) [_] calls) in Hlog; subst calls;
            apply list_elem_of_singleton in Hin; injection Hin as -> ->).
  all: try (apply (app_inv_tail (log w) [_; _] calls) in Hlog; subst calls;
            apply elem_of_cons in Hin; destruct Hin as [Hin|Hin]; [discriminate Hin|];
            apply list_elem_of_singleton in Hin; injection Hin as -> ->).
  all: match goal with
       | Hd : UploadUrl.destructure_item _ = Return _ |- _ =>
           apply destructure_item_fields in Hd; destruct Hd as (Hu & Ht & _)
       end.
  all: eexists _, _, _, _.
  all: split; [first [eassumption|reflexivity]|].
  all: split; [first [eassumption|reflexivity]|].
  all: split; [eauto|].
  all: split; [reflexivity|]; split; [reflexivity|].
  all: subst.
  all: match goal with
       | E : negb (nullish _) = true |- _ =>
           apply negb_true_iff in E; rewrite E
       | E : negb (nullish _) = false |- _ =>
           apply negb_false_iff in E; rewrite E
       end.
  all: repeat split; try discriminate; try (cbn [String.length]; lia).
  all: try (eapply caption_bound; eassumption).
  all: intros _;
    match goal with
    | E : bindC _ _ = Return _ |- _ =>
        apply caption_cut in E; destruct E as (t & Et & ->)
    end; exists t; split; [congruence|reflexivity].
Qed.

Lemma trimmed_title_not_empty (c : completion string) (s t : string) :
  truthy (VStr (trim s)) = true -> (c = Return s) -> c = Return t -> trim t <> "".
Proof.
  intros Ht Hs Hc. rewrite Hs in Hc. injection Hc as <-.
  cbn [truthy] in Ht. destruct (String.eqb_spec (trim s) ""); [discriminate|assumption].
Qed.

(** X5: every result of [processOne] echoes the url field of its item; a
    failure carries nothing else than an error, which is never empty, and a
    success carries nothing else than a link under [baseUrl]/file/ and a
    file name, which is a non-empty string. *)
Theorem processOne_result_shape `{Host} (item : value) (env : Env) (baseUrl : string)
    (w w' : World) (r : value) :
  UploadUrl.processOne item env baseUrl w = (Return r, w') ->
  (exists error,
     r = VObj [("url", field item "url"); ("success", VBool false); ("error", error)] /\
     truthy error = true) \/
  (exists key fileName,
     r = VObj [("url", field item "url"); ("success", VBool true);
               ("src", VStr (baseUrl +:+ "/file/" +:+ key));
               ("fileName", VStr fileName)] /\
     fileName <> "").
Proof.
  run_processOne.
  all: intros [= <- <-].
  all: match goal with
       | Hd : UploadUrl.destructure_item _ = Return _ |- _ =>
           apply destructure_item_fields in Hd; destruct Hd as (Hu & Ht & _)
       end.
  all: subst; try rewrite <- Hu.
  all: first
    [ left; eexists; split; [reflexivity|];
      first [ reflexivity | eapply or_else_truthy; [|eassumption]; reflexivity ]
    | right; eexists _, _; split; [reflexivity|];
      first [ discriminate
            | eapply trimmed_title_not_empty; eassumption ] ].
Qed.

(** X6: a success of [processOne] with the namespace bound has written
    exactly one record, under the key its link ends with: the text is empty
    and the metadata carry the file name of the result, the provider tag
    telegram, the flag liked set to false and a numeric TimeStamp.  Without a
    bound namespace the success is reported all the same and nothing is
    kept. *)
Theorem processOne_persists `{Host} (item : value) (env : Env) (baseUrl : string)
    (w w' : World) (r : value) :
  UploadUrl.processOne item env baseUrl w = (Return r, w') ->
  field r "success" = VBool true ->
  exists key fileName,
    field r "src" = VStr (baseUrl +:+ "/file/" +:+ key) /\
    field r "fileName" = VStr fileName /\
    if img_url env then
      exists md,
        kv w' = <[key := ("", md)]> (kv w) /\
        kv w' !! key = Some ("", md) /\
        field md "fileName" = VStr fileName /\
        field md "storageType" = VStr "telegram" /\
        field md "liked" = VBool false /\
        exists now, field md "TimeStamp" = VNum (Int now)
    else kv w' = kv w.
Proof.
  run_processOne.
  all: intros [= <- <-] Hs; try discriminate Hs.
  all: eexists _, _; split; [reflexivity|]; split; [reflexivity|]; cbn [kv].
  all: first [ reflexivity
             | eexists; split; [reflexivity|]; split; [apply lookup_insert_eq|];
               repeat split; eexists; reflexivity ].
Qed.

Lemma truthy_trim_false (s : string) : truthy (VStr (trim s)) = false -> trim s = "".
Proof.
  cbn [truthy]. destruct (String.eqb_spec (trim s) ""); [auto|discriminate].
Qed.

(** X7: on success the reply to the one remote call, as logged, is what
    names the record: the key of the link is the string of the file_id the
    reply yields, a dot, and the extension of the url; the file name is the
    trimmed string of the title when the title is not null and not blank, and
    otherwise image_, the random part drawn after the call, a dot and the
    same extension. *)
Theorem processOne_names `{Host} (item : value) (env : Env) (baseUrl : string)
    (w w' : World) (r : value) :
  UploadUrl.processOne item env baseUrl w = (Return r, w') ->
  field r "success" = VBool true ->
  exists u url params data result fileId fid,
    field item "url" = VStr u /\
    (if img_url env
     then exists md,
       log w' = EvPut (fid +:+ "." +:+ UploadUrl.getExtensionFromUrl u) "" md
                :: EvFetch url params :: log w
     else log w' = EvFetch url params :: log w) /\
    fetch (log w) url params = FetchResolves (Some data) /\
    get_prop data "result" = Return result /\
    UploadUrl.getFileIdFromPhoto result = Return fileId /\
    to_string fileId = Return fid /\
    field r "src"
    = VStr (baseUrl +:+ "/file/" +:+ fid +:+ "." +:+ UploadUrl.getExtensionFromUrl u) /\
    ((exists t, nullish (field item "title") = false /\
                to_string (field item "title") = Return t /\
                trim t <> "" /\ field r "fileName" = VStr (trim t)) \/
     ((nullish (field item "title") = true \/
       exists t, to_string (field item "title") = Return t /\ trim t = "") /\
      field r "fileName"
      = VStr ("image_" +:+ Math_random_id (EvFetch url params :: log w) +:+ "." +:+
              UploadUrl.getExtensionFromUrl u))).
Proof.
  run_processOne.
  all: intros [= <- <-] Hs; try discriminate Hs.
  all: match goal with
       | Hd : UploadUrl.destructure_item _ = Return _ |- _ =>
           apply destructure_item_fields in Hd; destruct Hd as (Hu & Ht & _)
       end.
  all: subst; symmetry in Hu.
  all: eexists _, _, _, _, _, _, _.
  all: split; [exact Hu|].
  all: split; [cbn [log]; first [reflexivity | eexists; reflexivity]|].
  all: split; [eassumption|]; split; [eassumption|].
  all: split; [eassumption|]; split; [eassumption|]; split; [reflexivity|].
  all: first
    [ left; eexists; split;
      [match goal with
       | E : negb (nullish _) = true |- _ => apply negb_true_iff in E; exact E
       end|];
      split; [eassumption|]; split;
      [eapply trimmed_title_not_empty; eassumption|];
      first [ reflexivity | congruence ]
    | right; split;
      [first [ left; match goal with
                     | E : negb (nullish _) = false |- _ =>
                         apply negb_false_iff in E; exact E
                     end
             | right; eexists; split; [eassumption|];
               apply truthy_trim_false; assumption ]
      | reflexivity ] ].
Qed.

Lemma get_prop_Return (v a : value) (k : string) :
  get_prop v k = Return a -> a = field v k.
Proof. destruct v; cbn; intros [= <-]; reflexivity. Qed.

Lemma or_else_Return (a d r : value) :
  or_else a (Return d) = Return r -> r = if truthy a then a else d.
Proof. unfold or_else. destruct (truthy a); intros [= <-]; reflexivity. Qed.

(** X8: an item that is not null and whose url is missing, empty or not a
    string is answered "missing or invalid url" without any call leaving the
    handler, whatever else the item carries and whatever the configuration. *)
Theorem processOne_invalid_url `{Host} (item : value) (env : Env) (baseUrl : string)
    (w : World) :
  nullish item = false ->
  (forall u, field item "url" = VStr u -> u = "") ->
  UploadUrl.processOne item env baseUrl w
  = (Return (VObj [("url", field item "url"); ("success", VBool false);
                   ("error", VStr "missing or invalid url")]), w).
Proof.
  intros Hitem Hurl. unfold UploadUrl.processOne, bindM, lift, ret.
  assert (Hd : UploadUrl.destructure_item item
               = Return (field item "url", field item "title")).
  { destruct item; try discriminate Hitem; reflexivity. }
  rewrite Hd. cbv beta iota zeta.
  destruct (field item "url") as [| | | |u| |] eqn:Hu; try reflexivity.
  rewrite (Hurl u eq_refl). reflexivity.
Qed.

(** X9: the error of a failed item tells its cause.  It is "missing or
    invalid url" exactly on the path that calls nothing; otherwise one remote
    call was made and the error is the message of the rejection (or "network
    error"), "invalid response from Telegram" when the body is not JSON, the
    description of the reply (or "Telegram API error") when the reply is not
    ok or has no result, and "no file_id in response" when the reply is ok
    but yields no file_id. *)
Theorem processOne_failure_cause `{Host} (item : value) (env : Env) (baseUrl : string)
    (w w' : World) (r : value) :
  UploadUrl.processOne item env baseUrl w = (Return r, w') ->
  field r "success" = VBool false ->
  (field r "error" = VStr "missing or invalid url" /\ w' = w /\
   forall u, field item "url" = VStr u -> u = "") \/
  exists url params,
    log w' = EvFetch url params :: log w /\
    match fetch (log w) url params with
    | FetchRejects e =>
        exists m, get_prop e "message" = Return m /\
                  field r "error" = if truthy m then m else VStr "network error"
    | FetchResolves None => field r "error" = VStr "invalid response from Telegram"
    | FetchResolves (Some data) =>
        (exists d,
           (truthy (field data "ok") = false \/ truthy (field data "result") = false) /\
           get_prop data "description" = Return d /\
           field r "error" = if truthy d then d else VStr "Telegram API error") \/
        (exists fileId,
           truthy (field data "ok") = true /\
           UploadUrl.getFileIdFromPhoto (field data "result") = Return fileId /\
           truthy fileId = false /\
           field r "error" = VStr "no file_id in response")
    end.
Proof.
  run_processOne.
  all: intros [= <- <-] Hs; try discriminate Hs; clear Hs.
  all: match goal with
       | Hd : UploadUrl.destructure_item _ = Return _ |- _ =>
           apply destructure_item_fields in Hd; destruct Hd as (Hu & Ht & _)
       end.
  all: subst; symmetry in Hu.
  all: repeat match goal with
              | E : get_prop ?v ?k = Return ?a |- _ =>
                  lazymatch k with
                  | "ok" => idtac | "result" => idtac
                  end;
                  apply get_prop_Return in E; subst a
              | E : or_else _ (Return _) = Return _ |- _ =>
                  apply or_else_Return in E; subst
              | E : negb _ = true |- _ => apply negb_true_iff in E
              | E : negb _ = false |- _ => apply negb_false_iff in E
              end.
  all: try (left; split; [reflexivity|]; split; [reflexivity|];
            intros u Hu'; rewrite Hu in Hu';
            first [ discriminate Hu'
                  | injection Hu' as <-;
                    match goal with
                    | E : truthy (VStr ?s) = false |- ?s = "" =>
                        cbn [truthy] in E; destruct (String.eqb_spec s "");
                        [assumption|discriminate E]
                    end ]).
  all: right; eexists _, _; split; [reflexivity|].
  all: match goal with E : fetch _ _ _ = _ |- _ => rewrite E end.
  all: first [ reflexivity
             | eexists; split; [eassumption|reflexivity]
             | left; eexists; split; [eauto|]; split; [eassumption|reflexivity]
             | right; eexists; repeat split; eassumption ].
Qed.

(** ** The identifier and the size of a stored record *)

Lemma id_and_size_selected `{Host} (result fileId fileSize : value) :
  UploadUrl.getFileIdFromPhoto result = Return fileId ->
  truthy fileId = true ->
  UploadUrl.getFileSizeFromPhoto result = Return fileSize ->
  exists v,
    selected result = Return (Some v) /\
    (exists arr, get_prop result "photo" = Return (VArr arr) /\ v ∈ arr) /\
    get_prop v "file_id" = Return fileId /\
    size_or_zero v = Return fileSize.
Proof.
  rewrite getFileIdFromPhoto_selected, getFileSizeFromPhoto_selected.
  destruct (selected result) as [[v|]|] eqn:Esel; cbn [bindC]; try discriminate.
  - intros Hid _ Hsize. exists v. split; [reflexivity|].
    split; [exact (selected_member _ _ Esel)|]. split; assumption.
  - intros [= <-]. discriminate.
Qed.

(** C9: for every result of the remote API, the identifier and the size are
    read off one and the same variant of its photo list, the one the shared
    reduction ends on, a missing size counting as 0.  Hence every record
    [processOne] stores follows the one remote call it made, and the reply to
    that call has a photo variant whose identifier is the prefix of the key
    and whose size is the size the metadata record; and every success with
    the namespace bound stores such a record. *)
Theorem same_variant `{Host} (result : value) :
  (exists sel : completion (option value),
     UploadUrl.getFileIdFromPhoto result =
       (let! o := sel in
        match o with
        | Some v => get_prop v "file_id"
        | None => Return VNull
        end) /\
     UploadUrl.getFileSizeFromPhoto result =
       (let! o := sel in
        match o with
        | Some v => let! fs := get_prop v "file_size" in or_else fs (Return (VNum (Int 0)))
        | None => Return (VNum (Int 0))
        end) /\
     forall v, sel = Return (Some v) ->
               exists arr, get_prop result "photo" = Return (VArr arr) /\ v ∈ arr) /\
  (forall item env baseUrl w x w' calls key text md,
     UploadUrl.processOne item env baseUrl w = (x, w') ->
     log w' = calls ++ log w ->
     EvPut key text md ∈ calls ->
     exists url params data res arr v id fid u,
       calls = [EvPut key text md; EvFetch url params] /\
       fetch (log w) url params = FetchResolves (Some data) /\
       get_prop data "result" = Return res /\
       get_prop res "photo" = Return (VArr arr) /\
       v ∈ arr /\
       selected res = Return (Some v) /\
       get_prop v "file_id" = Return id /\
       to_string id = Return fid /\
       field item "url" = VStr u /\
       key = fid +:+ "." +:+ UploadUrl.getExtensionFromUrl u /\
       (let! fs := get_prop v "file_size" in or_else fs (Return (VNum (Int 0))))
       = Return (field md "fileSize")) /\
  (forall item env baseUrl w r w',
     UploadUrl.processOne item env baseUrl w = (Return r, w') ->
     field r "success" = VBool true ->
     img_url env = true ->
     exists key md url params,
       log w' = EvPut key "" md :: EvFetch url params :: log w /\
       kv w' = <[key := ("", md)]> (kv w)).
Proof.
  split; [|split].
  - exists (selected result). split; [apply getFileIdFromPhoto_selected|].
    split; [apply getFileSizeFromPhoto_selected|apply selected_member].
  - intros item env baseUrl w x w' calls key text md.
    run_processOne.
    all: intros [= <- <-]; cbn [log kv]; intros Hlog Hin.
    all: try (apply (app_inv_tail (log w) [] calls) in Hlog; subst calls; inversion Hin).
    all: try (apply (app_inv_tail (log w) [_] calls) in Hlog; subst calls;
              apply list_elem_of_singleton in Hin; discriminate Hin).
    all: apply (app_inv_tail (log w) [_; _] calls) in Hlog; subst calls;
      apply elem_of_cons in Hin; destruct Hin as [Hin|Hin];
      [|apply list_elem_of_singleton in Hin; discriminate Hin];
      injection Hin as -> -> ->.
    all: match goal with
         | Hd : UploadUrl.destructure_item _ = Return _ |- _ =>
             apply destructure_item_fields in Hd; destruct Hd as (Hu & Ht & _)
         end.
    all: match goal with
         | Hid : UploadUrl.getFileIdFromPhoto _ = Return ?fileId,
           Htr : negb (truthy ?fileId) = false,
           Hsize : UploadUrl.getFileSizeFromPhoto _ = Return _ |- _ =>
             apply negb_false_iff in Htr;
             destruct (id_and_size_selected _ _ _ Hid Htr Hsize)
               as (chosen & Hsel & (photos & Harr & Hv) & Hfid & Hsz)
         end.
    all: subst; symmetry in Hu.
    all: eexists _, _, _, _, photos, chosen, _, _, _.
    all: split; [reflexivity|]; split; [eassumption|]; split; [eassumption|].
    all: split; [exact Harr|]; split; [exact Hv|]; split; [exact Hsel|].
    all: split; [exact Hfid|]; split; [eassumption|]; split; [exact Hu|].
    all: split; [reflexivity|exact Hsz].
  - intros item env baseUrl w r w'.
    run_processOne.
    all: intros [= <- <-] Hs Hbound; try discriminate Hs; try discriminate Hbound.
    all: cbn [log kv]; eexists _, _, _, _; split; reflexivity.
Qed.

(** The record stored for the sample item: the key starts with the
    identifier of the variant of size 300, which is the size recorded. *)
Lemma same_variant_witness :
  exists url params data res arr v id fid u,
    [EvPut "big.png" "" record_cat;
     EvFetch "https://api.telegram.org/bot123:abc/sendPhoto"
       [("chat_id", "-100"); ("photo", "https://x.com/pic.PNG?x=1"); ("caption", " cat ")]]
    = [EvPut "big.png" "" record_cat; EvFetch url params] /\
    fetch (Host := Sample.host) (log Sample.world) url params = FetchResolves (Some data) /\
    get_prop data "result" = Return res /\
    get_prop res "photo" = Return (VArr arr) /\
    v ∈ arr /\
    selected (H := Sample.host) res = Return (Some v) /\
    get_prop v "file_id" = Return id /\
    to_string id = Return fid /\
    field item_cat "url" = VStr u /\
    "big.png" = fid +:+ "." +:+ UploadUrl.getExtensionFromUrl (H := Sample.host) u /\
    (let! fs := get_prop v "file_size" in or_else fs (Return (VNum (Int 0))))
    = Return (field record_cat "fileSize").
Proof.
  exact (proj1 (proj2 (same_variant (H := Sample.host) VNull))
           item_cat Sample.env "https://h" Sample.world _ _
           [EvPut "big.png" "" record_cat;
            EvFetch "https://api.telegram.org/bot123:abc/sendPhoto"
              [("chat_id", "-100"); ("photo", "https://x.com/pic.PNG?x=1");
               ("caption", " cat ")]]
           "big.png" "" record_cat eq_refl eq_refl ltac:(left)).
Defined.

(** ** The ingestion handler *)

Section Post.
Context `{Host}.

Lemma processOne_echoes (item : value) (env : Env) (baseUrl : string)
    (w w' : World) (r : value) :
  UploadUrl.processOne item env baseUrl w = (Return r, w') ->
  field r "url" = field item "url" /\ exists b, field r "success" = VBool b.
Proof.
  run_processOne.
  all: intros [= <- <-].
  all: match goal with
       | Hd : UploadUrl.destructure_item _ = Return _ |- _ =>
           apply destructure_item_fields in Hd; destruct Hd as (Hu & Ht & _)
       end.
  all: subst; try rewrite <- Hu; split; [reflexivity|eexists; reflexivity].
Qed.

Lemma process_list_results (items : list value) (env : Env) (baseUrl : string) :
  forall (acc : list value) (w w' : World) (results : list value),
    UploadUrl.process_list items env baseUrl acc w = (Return results, w') ->
    exists new,
      results = acc ++ new /\
      Forall2 (fun item r => field r "url" = field item "url" /\
                             exists b, field r "success" = VBool b) items new.
Proof.
  induction items as [|item items IH]; intros acc w w' results; cbn [UploadUrl.process_list].
  - intros [= <- _]. exists []. split; [symmetry; apply app_nil_r|constructor].
  - unfold bindM. destruct (UploadUrl.processOne item env baseUrl w) as [[one|] w1] eqn:E1;
      [|discriminate].
    intros Hrest. destruct (IH _ _ _ _ Hrest) as (new & -> & Hnew).
    exists (one :: new). split; [rewrite <- app_assoc; reflexivity|].
    constructor; [eapply processOne_echoes; exact E1|exact Hnew].
Qed.

End Post.

(** X10: when the ingestion handler answers 200, the body holds one result
    per item of the submitted list, in the order of the list: the i-th result
    echoes the url of the i-th item and carries a boolean success flag,
    whether the items before it failed or not. *)
Theorem onRequestPost_one_result_per_item `{Host} (request : Request) (env : Env)
    (w w' : World) (response : Response) :
  UploadUrl.onRequestPost request env w = (Return response, w') ->
  status response = 200 ->
  exists json items results,
    request_json request = Some json /\
    field json "list" = VArr items /\
    items <> [] /\
    body response = VObj [("results", VArr results)] /\
    length results = length items /\
    Forall2 (fun item r => field r "url" = field item "url" /\
                           exists b, field r "success" = VBool b) items results.
Proof.
  unfold UploadUrl.onRequestPost.
  destruct (negb (UploadUrl.checkAuth request env)); [intros [= <- _]; discriminate|].
  destruct (_ || _); [intros [= <- _]; discriminate|].
  destruct (request_json request) as [json|]; [|intros [= <- _]; discriminate].
  unfold bindM, lift, ret.
  destruct (nullish json) eqn:Hn; [intros [= <- _]; discriminate|].
  rewrite (get_prop_field json "list" Hn).
  destruct (field json "list") as [| | | | |[|first rest]|] eqn:Hl;
    try (intros [= <- _]; discriminate).
  destruct (UploadUrl.process_list _ _ _ _ _) as [[results|] w1] eqn:Hp; [|discriminate].
  intros [= <- _] _.
  destruct (process_list_results _ _ _ _ _ _ _ Hp) as (new & -> & Hnew).
  exists json, (first :: rest), new. repeat split; try reflexivity; try assumption.
  - discriminate.
  - symmetry. eapply Forall2_length, Hnew.
Qed.

(** X11: every response of the ingestion handler is JSON and carries
    exactly the content type and the three CORS headers of the file (origin,
    methods, headers).  Every response other than 200 has status 401, 500
    or 400 and an error message for body, and is given before anything leaves
    the handler: no remote call, no write. *)
Theorem onRequestPost_rejections `{Host} (request : Request) (env : Env)
    (w w' : World) (response : Response) :
  UploadUrl.onRequestPost request env w = (Return response, w') ->
  headers response
  = [("Content-Type", "application/json");
     ("Access-Control-Allow-Origin", "*");
     ("Access-Control-Allow-Methods", "POST, OPTIONS");
     ("Access-Control-Allow-Headers", "Content-Type, Authorization")] /\
  (status response = 200 \/
   (w' = w /\
    (exists message, body response = VObj [("error", VStr message)] /\ message <> "") /\
    (status response = 401 \/ status response = 500 \/ status response = 400))).
Proof.
  assert (Herr : forall message st,
    message <> "" -> (st = 401 \/ st = 500 \/ st = 400)%Z ->
    headers (UploadUrl.errResponse message st)
    = [("Content-Type", "application/json");
       ("Access-Control-Allow-Origin", "*");
       ("Access-Control-Allow-Methods", "POST, OPTIONS");
       ("Access-Control-Allow-Headers", "Content-Type, Authorization")] /\
    (status (UploadUrl.errResponse message st) = 200 \/
     (w = w /\
      (exists m, body (UploadUrl.errResponse message st) = VObj [("error", VStr m)] /\
                 m <> "") /\
      (status (UploadUrl.errResponse message st) = 401 \/
       status (UploadUrl.errResponse message st) = 500 \/
       status (UploadUrl.errResponse message st) = 400)))).
  { intros message st Hm Hst. split; [reflexivity|]. right.
    split; [reflexivity|]. split; [exists message; split; [reflexivity|exact Hm]|].
    exact Hst. }
  unfold UploadUrl.onRequestPost.
  destruct (negb (UploadUrl.checkAuth request env));
    [intros [= <- <-]; apply Herr; [discriminate|auto]|].
  destruct (_ || _); [intros [= <- <-]; apply Herr; [discriminate|auto]|].
  destruct (request_json request) as [json|];
    [|intros [= <- <-]; apply Herr; [discriminate|auto]].
  unfold bindM, lift, ret.
  destruct (if nullish json then _ else _) as [lst|]; [|discriminate].
  destruct lst as [| | | | |[|first rest]|];
    try (intros [= <- <-]; apply Herr; [discriminate|auto]).
  destruct (UploadUrl.process_list _ _ _ _ _) as [[results|] w1]; [|discriminate].
  intros [= <- _]. split; [reflexivity|]. left. reflexivity.
Qed.

(** ** The metadata fetcher *)

Section Fetcher.
Context `{Host}.

Lemma fetch_one_run (key : string) (w : World) :
  Listing.fetch_one key w
  = (match kv_get_fault (log w) key with
     | Some e => Throw e
     | None => Return (stored_record (kv w) key)
     end, emit (EvGet key) w).
Proof.
  unfold Listing.fetch_one, bindM, call_getWithMetadata, ret, stored_record.
  destruct (kv_get_fault (log w) key); [reflexivity|].
  destruct (kv w !! key) as [[text md]|]; reflexivity.
Qed.

Lemma settle_fulfilled (l : list event) (xs : list Listing.Fetched) :
  Listing.settle l (Return <$> xs) = Return xs.
Proof.
  unfold Listing.settle.
  assert (Hno : omap (fun c : completion Listing.Fetched =>
                        match c with Throw e => Some e | Return _ => None end)
                  (Return <$> xs) = []).
  { induction xs as [|x xs IH]; [reflexivity|exact IH]. }
  rewrite Hno. clear Hno. f_equal. induction xs as [|x xs IH]; [reflexivity|].
  cbn. f_equal. exact IH.
Qed.

Lemma settle_Return (l : list event) (cs : list (completion Listing.Fetched))
    (xs : list Listing.Fetched) :
  Listing.settle l cs = Return xs -> cs = Return <$> xs.
Proof.
  unfold Listing.settle.
  destruct (omap _ cs) as [|e es] eqn:Hno; [|discriminate].
  intros [= <-]. induction cs as [|[x|e] cs IH]; [reflexivity| |discriminate Hno].
  cbn. f_equal. apply IH. exact Hno.
Qed.


Lemma promise_all_reads (batch : list string) :
  forall (w w' : World) (cs : list (completion Listing.Fetched)),
    Listing.promise_all batch w = (cs, w') ->
    kv w' = kv w /\
    log w' = reverse (EvGet <$> batch) ++ log w /\
    forall l xs, Listing.settle l cs = Return xs ->
      xs = stored_record (kv w) <$> batch /\
      Forall (fun key => exists l, kv_get_fault l key = None) batch.
Proof.
  induction batch as [|key batch IH]; intros w w' cs; cbn [Listing.promise_all].
  - intros [= <- <-]. repeat split; auto. cbn in H0. injection H0 as <-. reflexivity.
  - rewrite fetch_one_run.
    destruct (Listing.promise_all batch (emit (EvGet key) w)) as [cs' w2] eqn:Hrest.
    destruct (IH _ _ _ Hrest) as (Hkv & Hlog & Hxs).
    intros Hrun.
    assert (Hw : w' = w2 /\
      cs = (match kv_get_fault (log w) key with
            | Some e => Throw e
            | None => Return (stored_record (kv w) key)
            end) :: cs').
    { injection Hrun as <- <-; auto. }
    destruct Hw as [-> ->]. split; [exact Hkv|]. split.
    + rewrite Hlog. cbn [fmap list_fmap emit log]. rewrite reverse_cons, <- app_assoc.
      reflexivity.
    + intros l xs Hs. apply settle_Return in Hs.
      destruct xs as [|x xs']; [discriminate Hs|].
      cbn [fmap list_fmap] in Hs. injection Hs as Hhead Htail.
      destruct (kv_get_fault (log w) key) eqn:Hf; [discriminate|].
      injection Hhead as <-.
      destruct (Hxs l xs') as [-> Hall]; [rewrite Htail; apply settle_fulfilled|].
      split; [reflexivity|]. constructor; [eauto|exact Hall].
Qed.

Lemma fetch_batches_reads (keyNames : list string) (fuel : nat) :
  forall (i : nat) (results : list Listing.Fetched) (w w' : World)
         (x : completion (list Listing.Fetched)),
    Listing.fetch_batches fuel keyNames i results w = (x, w') ->
    kv w' = kv w /\
    exists calls, log w' = calls ++ log w /\ forallb is_read calls = true.
Proof.
  induction fuel as [|fuel IH]; intros i results w w' x; cbn [Listing.fetch_batches].
  - intros [= _ <-]. split; [reflexivity|]. exists []. split; reflexivity.
  - destruct (i <? length keyNames)%nat;
      [|intros [= _ <-]; split; [reflexivity|]; exists []; split; reflexivity].
    unfold bindM.
    destruct (Listing.promise_all _ w) as [cs w1] eqn:Hb.
    destruct (promise_all_reads _ _ _ _ Hb) as (Hkv & Hlog & _).
    assert (Hr : forallb is_read (reverse (EvGet <$> take Listing.BATCH_SIZE (drop i keyNames)))
                 = true).
    { apply forallb_forall. intros ev Hin. apply list_elem_of_In in Hin. rewrite elem_of_reverse in Hin.
      apply list_elem_of_fmap in Hin. destruct Hin as (k & -> & _). reflexivity. }
    destruct (Listing.settle _ cs) as [batchResults|e].
    + intros Hrest. destruct (IH _ _ _ _ _ Hrest) as (Hkv' & calls & Hlog' & Hcalls).
      split; [congruence|].
      eexists (calls ++ _). split; [rewrite Hlog', Hlog, app_assoc; reflexivity|].
      rewrite forallb_app, Hcalls, Hr. reflexivity.
    + intros [= _ <-]. split; [exact Hkv|]. eexists. split; [exact Hlog|exact Hr].
Qed.

Lemma fetch_batches_records (keyNames : list string) (fuel : nat) :
  forall (i : nat) (results rs : list Listing.Fetched) (w w' : World),
    (length keyNames <= i + fuel * Listing.BATCH_SIZE)%nat ->
    Listing.fetch_batches fuel keyNames i results w = (Return rs, w') ->
    rs = results ++ (stored_record (kv w) <$> drop i keyNames) /\
    log w' = reverse (EvGet <$> drop i keyNames) ++ log w /\
    Forall (fun key => exists l, kv_get_fault l key = None) (drop i keyNames).
Proof.
  induction fuel as [|fuel IH]; intros i results rs w w' Hfuel;
    cbn [Listing.fetch_batches].
  - intros [= <- <-]. rewrite drop_ge by lia. cbn. rewrite app_nil_r. auto.
  - destruct (Nat.ltb_spec i (length keyNames)) as [Hlt|Hge].
    + unfold bindM.
      destruct (Listing.promise_all _ w) as [cs w1] eqn:Hb.
      destruct (promise_all_reads _ _ _ _ Hb) as (Hkv & Hlog & Hxs).
      destruct (Listing.settle _ cs) as [batchResults|e] eqn:Hs; [|discriminate].
      destruct (Hxs _ _ Hs) as [-> Hok].
      intros Hrest. apply IH in Hrest; [|unfold Listing.BATCH_SIZE in *; lia].
      destruct Hrest as (-> & Hlog' & Hok').
      rewrite Hkv in *.
      assert (Hsplit : drop i keyNames
                       = take Listing.BATCH_SIZE (drop i keyNames)
                         ++ drop (i + Listing.BATCH_SIZE) keyNames).
      { rewrite <- (take_drop Listing.BATCH_SIZE (drop i keyNames)) at 1.
        rewrite drop_drop. reflexivity. }
      split; [|split].
      * rewrite Hsplit at 2. rewrite fmap_app, app_assoc. reflexivity.
      * assert (Hrev : reverse (EvGet <$> drop i keyNames)
                       = reverse (EvGet <$> drop (i + Listing.BATCH_SIZE) keyNames)
                         ++ reverse (EvGet <$> take Listing.BATCH_SIZE (drop i keyNames))).
        { rewrite Hsplit at 1. rewrite fmap_app, reverse_app. reflexivity. }
        rewrite Hlog', Hlog, Hrev, app_assoc. reflexivity.
      * rewrite Hsplit. apply Forall_app. split; assumption.
    + intros [= <- <-]. rewrite drop_ge by lia. cbn. rewrite app_nil_r. auto.
Qed.

End Fetcher.

Lemma fetchAllWithMetadata_records `{Host} (keyNames : list string)
    (w w' : World) (records : list Listing.Fetched) :
  Listing.fetchAllWithMetadata keyNames w = (Return records, w') ->
  records = stored_record (kv w) <$> keyNames /\ kv w' = kv w.
Proof.
  unfold Listing.fetchAllWithMetadata. intros Hrun.
  destruct (fetch_batches_reads _ _ _ _ _ _ _ Hrun) as [Hkv _].
  apply fetch_batches_records in Hrun; [|unfold Listing.BATCH_SIZE; lia].
  destruct Hrun as (-> & _ & _). auto.
Qed.

(** X12: when the metadata fetcher returns, it returns one record per key,
    in the order of the keys and whatever the batch boundaries: the record of
    a key holds its name, the text and the metadata stored under it, and null
    for both when the key is absent.  The gets were issued in that same
    order, and the namespace is as it was. *)
Theorem fetchAllWithMetadata_in_order `{Host} (keyNames : list string)
    (w w' : World) (records : list Listing.Fetched) :
  Listing.fetchAllWithMetadata keyNames w = (Return records, w') ->
  records = stored_record (kv w) <$> keyNames /\
  Listing.name <$> records = keyNames /\
  log w' = reverse (EvGet <$> keyNames) ++ log w /\
  kv w' = kv w.
Proof.
  unfold Listing.fetchAllWithMetadata. intros Hrun.
  destruct (fetch_batches_reads _ _ _ _ _ _ _ Hrun) as [Hkv _].
  apply fetch_batches_records in Hrun; [|unfold Listing.BATCH_SIZE; lia].
  destruct Hrun as (-> & Hlog & _). cbn [drop app] in *.
  repeat split; try assumption.
  rewrite <- list_fmap_compose. rewrite <- (list_fmap_id keyNames) at 2.
  apply list_fmap_ext. intros _ key _. unfold stored_record. cbn.
  destruct (kv w !! key) as [[text md]|]; reflexivity.
Qed.

(** X13: one key whose get is rejected fails the whole fetch: no partial
    list of records is returned. *)
Theorem fetchAllWithMetadata_all_or_nothing `{Host} (keyNames : list string)
    (key : string) (w : World) :
  key ∈ keyNames ->
  (forall l, kv_get_fault l key <> None) ->
  exists e, (Listing.fetchAllWithMetadata keyNames w).1 = Throw e.
Proof.
  intros Hin Hfault. unfold Listing.fetchAllWithMetadata.
  destruct (Listing.fetch_batches _ _ _ _ w) as [[records|e] w'] eqn:Hrun; [|eauto].
  exfalso. apply fetch_batches_records in Hrun; [|unfold Listing.BATCH_SIZE; lia].
  destruct Hrun as (_ & _ & Hok). cbn [drop] in Hok.
  rewrite Forall_forall in Hok. destruct (Hok key Hin) as [l Hl].
  exact (Hfault l Hl).
Qed.

(** ** The listing handler *)

Section ListingHandler.
Context `{Host}.

Lemma listAllKeys_loop_reads (fuel : nat) :
  forall (names : list string) (cur : value) (w w' : World)
         (x : completion (list string)),
    Listing.listAllKeys_loop fuel names cur w = Some (x, w') ->
    kv w' = kv w /\
    exists calls, log w' = calls ++ log w /\ forallb is_read calls = true.
Proof.
  induction fuel as [|fuel IH]; intros names cur w w' x; cbn [Listing.listAllKeys_loop];
    [discriminate|].
  unfold call_list.
  destruct (kv_list (log w) (kv w) Listing.LIST_PAGE_SIZE cur) as [r|e].
  - destruct (truthy _).
    + intros Hrest. destruct (IH _ _ _ _ _ Hrest) as (Hkv & calls & Hlog & Hcalls).
      split; [exact Hkv|]. exists (calls ++ [EvList Listing.LIST_PAGE_SIZE cur]).
      split; [rewrite Hlog, <- app_assoc; reflexivity|].
      rewrite forallb_app, Hcalls. reflexivity.
    + intros [= _ <-]. split; [reflexivity|].
      exists [EvList Listing.LIST_PAGE_SIZE cur]. split; reflexivity.
  - intros [= _ <-]. split; [reflexivity|].
    exists [EvList Listing.LIST_PAGE_SIZE cur]. split; reflexivity.
Qed.

Lemma map_items_each (origin : string) (fetched : list Listing.Fetched) :
  forall items,
    Listing.map_items origin fetched = Return items ->
    Forall2 (fun f item =>
               Listing.buildItem origin (Listing.name f) (Listing.metadata f)
                 (Listing.value_text f) = Return item) fetched items.
Proof.
  induction fetched as [|f fetched IH]; intros items; cbn [Listing.map_items].
  - intros [= <-]. constructor.
  - destruct (Listing.buildItem _ _ _ _) as [item|] eqn:Hb; cbn [bindC]; [|discriminate].
    destruct (Listing.map_items origin fetched) as [rest|]; cbn [bindC]; [|discriminate].
    intros [= <-]. constructor; [exact Hb|apply IH; reflexivity].
Qed.

Lemma coerce_time_number (t u : value) :
  coerce_time t = Return u -> u = VNull \/ exists n, u = VNum n.
Proof.
  unfold coerce_time.
  destruct t; try (intros [= <-]; eauto);
    (destruct (to_string _); cbn [bindC]; [intros [= <-]; eauto|discriminate]).
Qed.

(** The item in full: its four fixed fields and the optional storage tag. *)
Lemma buildItem_item (origin keyName : string) (metadata : value)
    (valueText : option string) (item : value) :
  Listing.buildItem origin keyName metadata valueText = Return item ->
  exists fileName uploadTime,
    item = VObj ([("key", VStr keyName);
                  ("url", VStr (origin +:+ "/file/" +:+ Listing.encodeURIComponent keyName));
                  ("fileName", fileName); ("uploadTime", uploadTime)]
                 ++ (if truthy (field metadata "storageType")
                     then [("storageType", field metadata "storageType")] else [])) /\
    (uploadTime = VNull \/ exists n, uploadTime = VNum n).
Proof.
  rewrite buildItem_unfold. cbv zeta.
  destruct (or_else _ _) as [fileName|]; cbn [bindC]; [|discriminate].
  match goal with
  | |- bindC ?c _ = _ -> _ => destruct c as [t|]; cbn [bindC]; [|discriminate]
  end.
  destruct (coerce_time t) as [uploadTime|] eqn:Ht; cbn [bindC]; [|discriminate].
  intros [= <-]. exists fileName, uploadTime. split; [reflexivity|].
  exact (coerce_time_number t uploadTime Ht).
Qed.

End ListingHandler.

(** X14: the listing handler only reads.  However a request ends (a
    response or a raise), the namespace is what it was and every call that
    left the handler is a list or a get: no put, no remote call. *)
Theorem onRequestGet_read_only `{Host} (fuel : nat) (request : Request) (env : Env)
    (w w' : World) (x : completion Response) :
  Listing.onRequestGet fuel request env w = Some (x, w') ->
  kv w' = kv w /\
  exists calls, log w' = calls ++ log w /\ forallb is_read calls = true.
Proof.
  assert (Hsame : kv w = kv w /\
            exists calls, log w = calls ++ log w /\ forallb is_read calls = true).
  { split; [reflexivity|]. exists []. split; reflexivity. }
  unfold Listing.onRequestGet. cbv zeta.
  destruct (match BASIC_PASS env with Some _ => _ | None => false end);
    [intros [= _ <-]; exact Hsame|].
  destruct (negb (img_url env)); [intros [= _ <-]; exact Hsame|].
  assert (Hall : forall y w1, Listing.list_all fuel request w = Some (y, w1) ->
            kv w1 = kv w /\
            exists calls, log w1 = calls ++ log w /\ forallb is_read calls = true).
  { unfold Listing.list_all, Listing.listAllKeys. intros y w1.
    destruct (Listing.listAllKeys_loop fuel [] _ w) as [[[keyNames|e] w0]|] eqn:Hkeys;
      [| |discriminate].
    - destruct (listAllKeys_loop_reads _ _ _ _ _ _ Hkeys) as (Hkv & c1 & Hl1 & Hc1).
      unfold bindM, lift, ret, Listing.fetchAllWithMetadata.
      destruct (Listing.fetch_batches _ _ _ _ w0) as [[fetched|e] w2] eqn:Hf;
        destruct (fetch_batches_reads _ _ _ _ _ _ _ Hf) as (Hkv2 & c2 & Hl2 & Hc2).
      + destruct (Listing.map_items _ _); intros [= _ <-]; (split; [congruence|]);
          exists (c2 ++ c1); (split; [rewrite Hl2, Hl1; apply app_assoc|]);
          rewrite forallb_app, Hc1, Hc2; reflexivity.
      + intros [= _ <-]. split; [congruence|].
        exists (c2 ++ c1). split; [rewrite Hl2, Hl1; apply app_assoc|].
        rewrite forallb_app, Hc1, Hc2. reflexivity.
    - intros [= _ <-]. eapply listAllKeys_loop_reads, Hkeys. }
  destruct (Listing.list_all fuel request w) as [[[response|e] w1]|] eqn:Hl;
    [| |discriminate]; intros [= _ <-]; eapply Hall; reflexivity.
Qed.

(** X15: a 200 answer of the listing handler lists one item per key name the
    walk returned, in the order of the walk, each built from the record stored
    under that name and carrying it as its key; total is the number of items,
    hence the number of names. *)
Theorem onRequestGet_lists_every_key `{Host} (fuel : nat) (request : Request)
    (env : Env) (w w' : World) (response : Response) :
  Listing.onRequestGet fuel request env w = Some (Return response, w') ->
  status response = 200 ->
  exists cur names w1 items,
    Listing.listAllKeys fuel cur w = Some (Return names, w1) /\
    body response
    = VObj [("list", VArr items); ("total", VNum (Int (Z.of_nat (length items))))] /\
    length items = length names /\
    Forall2 (fun key item =>
               Listing.buildItem (url_origin request) key
                 (Listing.metadata (stored_record (kv w) key))
                 (Listing.value_text (stored_record (kv w) key)) = Return item /\
               field item "key" = VStr key) names items.
Proof.
  unfold Listing.onRequestGet. cbv zeta.
  destruct (match BASIC_PASS env with Some _ => _ | None => false end);
    [intros [= <- _]; discriminate|].
  destruct (negb (img_url env)); [intros [= <- _]; discriminate|].
  unfold Listing.list_all.
  match goal with
  | |- context [Listing.listAllKeys fuel ?c w] => set (cur := c)
  end.
  destruct (Listing.listAllKeys fuel cur w) as [[[names|e] w1]|] eqn:Hkeys;
    [| |discriminate].
  - unfold bindM, lift, ret.
    destruct (Listing.fetchAllWithMetadata names w1) as [[fetched|e] w2] eqn:Hf.
    + destruct (Listing.map_items _ fetched) as [items|e] eqn:Hitems.
      * intros [= <- _] _.
        destruct (fetchAllWithMetadata_records names w1 w2 fetched Hf) as (-> & _).
        destruct (listAllKeys_loop_reads _ _ _ _ _ _ Hkeys) as (Hkv & _).
        apply map_items_each in Hitems. rewrite Forall2_fmap_l in Hitems.
        exists cur, names, w1, items. split; [exact Hkeys|]. split; [reflexivity|].
        split; [symmetry; eapply Forall2_length, Hitems|].
        eapply Forall2_impl; [exact Hitems|]. intros key item Hb. cbn in Hb.
        rewrite Hkv in Hb.
        assert (Hname : Listing.name (stored_record (kv w) key) = key).
        { unfold stored_record. destruct (kv w !! key) as [[text md]|]; reflexivity. }
        rewrite Hname in Hb. split; [exact Hb|].
        apply buildItem_item in Hb. destruct Hb as (f & t & -> & _). reflexivity.
      * destruct (get_prop e "message"); cbn [bindC]; [|discriminate].
        destruct (or_else _ _); cbn [bindC]; [|discriminate].
        intros [= <- _]. discriminate.
    + destruct (get_prop e "message"); cbn [bindC]; [|discriminate].
      destruct (or_else _ _); cbn [bindC]; [|discriminate].
      intros [= <- _]. discriminate.
  - destruct (get_prop e "message"); cbn [bindC]; [|discriminate].
    destruct (or_else _ _); cbn [bindC]; [|discriminate].
    intros [= <- _]. discriminate.
Qed.

(** ** More on the pagination walker *)

Lemma paged_calls `{Host} (w w' : World) (cur : value) (pages : list (list string)) :
  paged w cur pages w' ->
  kv w' = kv w /\
  exists cursors,
    length cursors = length pages /\
    head cursors = Some cur /\
    log w' = reverse (EvList Listing.LIST_PAGE_SIZE <$> cursors) ++ log w.
Proof.
  induction 1 as [w cur r _ _ _ | w cur r pages w' _ _ _ _ _ IH].
  - split; [reflexivity|]. exists [cur]. repeat split.
  - destruct IH as (Hkv & cursors & Hlen & _ & Hlog).
    split; [exact Hkv|]. exists (cur :: cursors). repeat split.
    + cbn. rewrite Hlen. reflexivity.
    + rewrite Hlog. cbn [fmap list_fmap emit log].
      rewrite reverse_cons, <- app_assoc. reflexivity.
Qed.

(** X16: from any starting cursor, the walker makes exactly one list call
    per page, each for at most [LIST_PAGE_SIZE] names and the first with the
    starting cursor, returns the names of the pages in order, and leaves the
    namespace as it was. *)
Theorem listAllKeys_one_call_per_page `{Host} (w w' : World) (cur : value)
    (pages : list (list string)) (fuel : nat) :
  paged w cur pages w' ->
  (length pages <= fuel)%nat ->
  Listing.listAllKeys fuel cur w = Some (Return (concat pages), w') /\
  kv w' = kv w /\
  exists cursors,
    length cursors = length pages /\
    head cursors = Some cur /\
    log w' = reverse (EvList Listing.LIST_PAGE_SIZE <$> cursors) ++ log w.
Proof.
  intros Hpaged Hfuel. split; [|exact (paged_calls _ _ _ _ Hpaged)].
  unfold Listing.listAllKeys.
  exact (listAllKeys_loop_paged _ _ _ _ Hpaged fuel [] Hfuel).
Qed.

Lemma listAllKeys_one_call_per_page_witness :
  Listing.listAllKeys (H := Sample.host) 5 VUndefined Sample.world
  = Some (Return ["a.png"; "b.jpg"; "c.gif"],
          emit (EvList Listing.LIST_PAGE_SIZE (VStr "p2"))
            (emit (EvList Listing.LIST_PAGE_SIZE VUndefined) Sample.world)).
Proof.
  exact (proj1 (listAllKeys_one_call_per_page (H := Sample.host) _ _ _ _ 5
                  sample_pages ltac:(cbn; lia))).
Defined.

(** X17: the walk has no bound of its own.  Against a namespace that never
    signals completion and always hands a cursor, no number of iterations
    brings it to an end. *)
Theorem listAllKeys_unbounded `{Host} (fuel : nat) (cur : value) (w : World) :
  (forall l m c, exists r,
     kv_list l m Listing.LIST_PAGE_SIZE c = Return r /\
     list_complete r = false /\ truthy (cursor r) = true) ->
  Listing.listAllKeys fuel cur w = None.
Proof.
  intros Hmore. unfold Listing.listAllKeys. generalize (@nil string) as names.
  revert cur w. induction fuel as [|fuel IH]; intros cur w names; [reflexivity|].
  cbn [Listing.listAllKeys_loop]. unfold call_list.
  destruct (Hmore (log w) (kv w) cur) as (r & -> & -> & ->). apply IH.
Qed.

Lemma listAllKeys_unbounded_witness :
  Listing.listAllKeys (H := endless_host) 1000 VUndefined Sample.world = None.
Proof.
  apply (listAllKeys_unbounded (H := endless_host)).
  intros l m c. eexists. repeat split.
Defined.

(** ** What a listed item holds *)

(** X18: an item of the listing has the fields key, url, fileName and
    uploadTime, and storageType exactly when the metadata has a truthy one,
    echoed as it is; uploadTime is null or a number; nothing else of the
    metadata or of the payload shows. *)
Theorem buildItem_fields_only `{Host} (origin keyName : string) (metadata : value)
    (valueText : option string) (item : value) :
  Listing.buildItem origin keyName metadata valueText = Return item ->
  field item "key" = VStr keyName /\
  field item "url" = VStr (origin +:+ "/file/" +:+ Listing.encodeURIComponent keyName) /\
  (field item "uploadTime" = VNull \/ exists n, field item "uploadTime" = VNum n) /\
  field item "storageType"
  = (if truthy (field metadata "storageType") then field metadata "storageType"
     else VUndefined) /\
  forall k, k ∉ ["key"; "url"; "fileName"; "uploadTime"; "storageType"] ->
            field item k = VUndefined.
Proof.
  intros Hb. apply buildItem_item in Hb. destruct Hb as (f & t & -> & Ht).
  split; [reflexivity|]. split; [reflexivity|]. split; [exact Ht|]. split.
  - destruct (truthy (field metadata "storageType")); reflexivity.
  - intros k Hk. cbn [field app assoc].
    repeat match goal with
           | |- context [String.eqb k ?s] =>
               destruct (String.eqb_spec k s) as [->|_]; [exfalso; apply Hk; repeat (apply elem_of_cons; first [left; reflexivity|right])|]
           end.
    destruct (truthy (field metadata "storageType")); cbn [assoc]; [|reflexivity].
    destruct (String.eqb_spec k "storageType") as [->|_]; [|reflexivity].
    exfalso; apply Hk; repeat (apply elem_of_cons; first [left; reflexivity|right]).
Qed.

Lemma buildItem_fields_only_witness :
  field (VObj [("key", VStr "k"); ("url", VStr "https://h/file/k");
               ("fileName", VStr "a"); ("uploadTime", VNum (Int 5));
               ("storageType", VStr "telegram")]) "fileSize" = VUndefined.
Proof.
  exact (proj2 (proj2 (proj2 (proj2
    (buildItem_fields_only (H := Sample.host) "https://h" "k"
       (VObj [("fileName", VStr "a"); ("TimeStamp", VNum (Int 5));
              ("fileSize", VNum (Int 300)); ("storageType", VStr "telegram")])
       (Some Sample.text_fileName_b) _ eq_refl)))) "fileSize"
    ltac:(repeat (apply not_elem_of_cons; split; [discriminate|]); apply not_elem_of_nil)).
Defined.

(** ** From the upload to the listing *)

Lemma buildItem_uploaded `{Host} (origin key fileName : string) (now : Z)
    (fileSize messageId : value) :
  fileName <> "" ->
  Listing.buildItem origin key
    (VObj [("TimeStamp", VNum (Int now)); ("ListType", VStr "None");
           ("Label", VStr "None"); ("liked", VBool false);
           ("fileName", VStr fileName); ("fileSize", fileSize);
           ("storageType", VStr "telegram"); ("telegramMessageId", messageId)])
    (Some "")
  = Return (VObj [("key", VStr key);
                  ("url", VStr (origin +:+ "/file/" +:+ Listing.encodeURIComponent key));
                  ("fileName", VStr fileName); ("uploadTime", VNum (Int now));
                  ("storageType", VStr "telegram")]).
Proof.
  intros Hne. rewrite buildItem_unfold. cbv zeta.
  cbn [field assoc String.eqb Ascii.eqb Bool.eqb payload orb]. unfold or_else.
  cbn [truthy]. destruct (String.eqb_spec fileName "") as [|_]; [contradiction|].
  reflexivity.
Qed.

Lemma encode_unreserved (s : string) :
  all_chars Listing.uri_unreserved s = true -> Listing.encodeURIComponent s = s.
Proof.
  induction s as [|c s IH]; [reflexivity|]. cbn [all_chars Listing.encodeURIComponent].
  intros Hs. apply andb_true_iff in Hs. destruct Hs as [Hc Hs].
  unfold Listing.encode_unit. rewrite Hc, (IH Hs). reflexivity.
Qed.

(** X19: what a successful upload stores is what the listing shows.  After a
    success of [processOne] with the namespace bound, the record fetched
    under the key of the returned link normalises to an item with that key,
    the file name returned to the uploader, a numeric upload time and the
    storage tag telegram; and when the key is made of unreserved characters
    the url of the item under the same origin is the returned link itself. *)
Theorem upload_then_list `{Host} (item : value) (env : Env) (baseUrl : string)
    (w w' : World) (r : value) :
  UploadUrl.processOne item env baseUrl w = (Return r, w') ->
  field r "success" = VBool true ->
  img_url env = true ->
  exists key fileName now,
    field r "src" = VStr (baseUrl +:+ "/file/" +:+ key) /\
    field r "fileName" = VStr fileName /\
    Listing.buildItem baseUrl
      (Listing.name (stored_record (kv w') key))
      (Listing.metadata (stored_record (kv w') key))
      (Listing.value_text (stored_record (kv w') key))
    = Return (VObj [("key", VStr key);
                    ("url", VStr (baseUrl +:+ "/file/" +:+ Listing.encodeURIComponent key));
                    ("fileName", VStr fileName); ("uploadTime", VNum (Int now));
                    ("storageType", VStr "telegram")]) /\
    (all_chars Listing.uri_unreserved key = true ->
     VStr (baseUrl +:+ "/file/" +:+ Listing.encodeURIComponent key) = field r "src").
Proof.
  run_processOne.
  all: intros [= <- <-] Hs Hbound; try discriminate Hs; try discriminate Hbound.
  all: eexists _, _, _; split; [reflexivity|]; split; [reflexivity|].
  all: cbn [kv]; unfold stored_record; rewrite lookup_insert_eq.
  all: cbn [Listing.name Listing.metadata Listing.value_text nullish].
  all: split; [|intros Hk; rewrite (encode_unreserved _ Hk); reflexivity].
  all: apply buildItem_uploaded.
  all: first [ discriminate | eapply trimmed_title_not_empty; eassumption ].
Qed.

(** ** Keys and urls *)

Lemma decode_first_encode_unit (c : ascii) (rest : string) :
  decode_first (Listing.encode_unit c +:+ rest) = Some (c, rest).
Proof. destruct c as [[] [] [] [] [] [] [] []]; reflexivity. Qed.

Lemma encodeURIComponent_injective (s1 s2 : string) :
  Listing.encodeURIComponent s1 = Listing.encodeURIComponent s2 -> s1 = s2.
Proof.
  revert s2. induction s1 as [|c1 s1 IH]; intros [|c2 s2];
    cbn [Listing.encodeURIComponent]; intros Henc.
  - reflexivity.
  - apply (f_equal decode_first) in Henc.
    rewrite decode_first_encode_unit in Henc. discriminate Henc.
  - apply (f_equal decode_first) in Henc.
    rewrite decode_first_encode_unit in Henc. discriminate Henc.
  - apply (f_equal decode_first) in Henc.
    rewrite !decode_first_encode_unit in Henc. injection Henc as -> Henc.
    f_equal. apply IH, Henc.
Qed.

Lemma append_cancel_l (p a b : string) : p +:+ a = p +:+ b -> a = b.
Proof.
  induction p as [|c p IH]; [auto|]. rewrite !append_cons. intros [= Hp]. auto.
Qed.

Lemma encode_unit_safe (c : ascii) :
  all_chars (fun x => Listing.uri_unreserved x || Ascii.eqb x "%") (Listing.encode_unit c)
  = true.
Proof. destruct c as [[] [] [] [] [] [] [] []]; reflexivity. Qed.

Lemma encodeURIComponent_safe (s : string) :
  all_chars (fun x => Listing.uri_unreserved x || Ascii.eqb x "%")
    (Listing.encodeURIComponent s) = true.
Proof.
  induction s as [|c s IH]; [reflexivity|]. cbn [Listing.encodeURIComponent].
  rewrite all_chars_app, encode_unit_safe, IH. reflexivity.
Qed.

(** X20: under one origin the url of a listed item determines its key: two
    keys never share a url.  What follows [origin]/file/ in the url is made
    of unreserved characters and percent signs only, so a key with a slash,
    a space or a question mark cannot break out of the path segment. *)
Theorem item_url_determines_key `{Host} (origin key1 key2 : string)
    (metadata1 metadata2 : value) (valueText1 valueText2 : option string)
    (item1 item2 : value) :
  Listing.buildItem origin key1 metadata1 valueText1 = Return item1 ->
  Listing.buildItem origin key2 metadata2 valueText2 = Return item2 ->
  (field item1 "url" = field item2 "url" -> key1 = key2) /\
  exists segment,
    field item1 "url" = VStr (origin +:+ "/file/" +:+ segment) /\
    all_chars (fun x => Listing.uri_unreserved x || Ascii.eqb x "%") segment = true.
Proof.
  intros H1 H2. apply buildItem_item in H1, H2.
  destruct H1 as (f1 & t1 & -> & _). destruct H2 as (f2 & t2 & -> & _).
  split.
  - cbn [field app assoc String.eqb Ascii.eqb Bool.eqb]. intros [= Hurl].
    apply append_cancel_l in Hurl. apply append_cancel_l in Hurl.
    apply encodeURIComponent_injective, Hurl.
  - exists (Listing.encodeURIComponent key1). split; [reflexivity|].
    apply encodeURIComponent_safe.
Qed.

(** ** Errors of the listing *)

Section ListingErrors.
Context `{Host}.



End ListingErrors.


(** ** The properties above on the sample host *)

Lemma processOne_protocol_witness :
  let w' := (UploadUrl.processOne (H := Sample.host) item_cat Sample.env "https://h"
               Sample.world).2 in
  (log w' = log Sample.world /\ kv w' = kv Sample.world) \/
  (exists u b, log w' = EvFetch u b :: log Sample.world /\ kv w' = kv Sample.world) \/
  (exists u b key md,
     log w' = EvPut key "" md :: EvFetch u b :: log Sample.world /\
     img_url Sample.env = true /\
     (kv w' = kv Sample.world \/ kv w' = <[key := ("", md)]> (kv Sample.world))).
Proof.
  exact (processOne_protocol (H := Sample.host) item_cat Sample.env "https://h"
           Sample.world _ _ eq_refl).
Defined.

Lemma processOne_request_witness :
  exists token chat u caption,
    to_string (var (TG_Bot_Token Sample.env)) = Return token /\
    to_string (var (TG_Chat_ID Sample.env)) = Return chat /\
    field item_cat "url" = VStr u /\
    "https://api.telegram.org/bot123:abc/sendPhoto"
    = "https://api.telegram.org/bot" +:+ token +:+ "/sendPhoto" /\
    [("chat_id", "-100"); ("photo", "https://x.com/pic.PNG?x=1"); ("caption", " cat ")]
    = [("chat_id", chat); ("photo", trim u); ("caption", caption)] /\
    (String.length caption <= 1024)%nat /\
    (nullish (field item_cat "title") = true -> caption = "") /\
    (nullish (field item_cat "title") = false ->
     exists t, to_string (field item_cat "title") = Return t /\ caption = slice_to 1024 t).
Proof.
  exact (processOne_request (H := Sample.host) item_cat Sample.env "https://h"
           Sample.world _ _
           (log (UploadUrl.processOne (H := Sample.host) item_cat Sample.env "https://h"
                   Sample.world).2)
           "https://api.telegram.org/bot123:abc/sendPhoto"
           [("chat_id", "-100"); ("photo", "https://x.com/pic.PNG?x=1");
            ("caption", " cat ")]
           eq_refl eq_refl ltac:(right; left)).
Defined.

Lemma processOne_result_shape_witness :
  (exists error,
     result_cat = VObj [("url", field item_cat "url"); ("success", VBool false);
                        ("error", error)] /\
     truthy error = true) \/
  (exists key fileName,
     result_cat = VObj [("url", field item_cat "url"); ("success", VBool true);
                        ("src", VStr ("https://h" +:+ "/file/" +:+ key));
                        ("fileName", VStr fileName)] /\
     fileName <> "").
Proof.
  exact (processOne_result_shape (H := Sample.host) item_cat Sample.env "https://h"
           Sample.world _ result_cat eq_refl).
Defined.

Lemma processOne_persists_witness :
  let w' := (UploadUrl.processOne (H := Sample.host) item_cat Sample.env "https://h"
               Sample.world).2 in
  exists key fileName,
    field result_cat "src" = VStr ("https://h" +:+ "/file/" +:+ key) /\
    field result_cat "fileName" = VStr fileName /\
    exists md,
      kv w' = <[key := ("", md)]> (kv Sample.world) /\
      kv w' !! key = Some ("", md) /\
      field md "fileName" = VStr fileName /\
      field md "storageType" = VStr "telegram" /\
      field md "liked" = VBool false /\
      exists now, field md "TimeStamp" = VNum (Int now).
Proof.
  exact (processOne_persists (H := Sample.host) item_cat Sample.env "https://h"
           Sample.world _ result_cat eq_refl eq_refl).
Defined.

Lemma processOne_invalid_url_witness :
  UploadUrl.processOne (H := Sample.host) (VObj [("url", VNum (Int 4)); ("title", VStr "t")])
    Sample.env "https://h" Sample.world
  = (Return (VObj [("url", VNum (Int 4)); ("success", VBool false);
                   ("error", VStr "missing or invalid url")]), Sample.world).
Proof.
  exact (processOne_invalid_url (H := Sample.host)
           (VObj [("url", VNum (Int 4)); ("title", VStr "t")])
           Sample.env "https://h" Sample.world eq_refl
           ltac:(intros u Hu; discriminate Hu)).
Defined.

Lemma processOne_failure_cause_witness :
  let w' := (UploadUrl.processOne (H := Sample.host) item_rejected Sample.env "https://h"
               Sample.world).2 in
  (field result_rejected "error" = VStr "missing or invalid url" /\ w' = Sample.world /\
   forall u, field item_rejected "url" = VStr u -> u = "") \/
  exists url params,
    log w' = EvFetch url params :: log Sample.world /\
    match fetch (Host := Sample.host) (log Sample.world) url params with
    | FetchRejects e =>
        exists m, get_prop e "message" = Return m /\
                  field result_rejected "error"
                  = if truthy m then m else VStr "network error"
    | FetchResolves None =>
        field result_rejected "error" = VStr "invalid response from Telegram"
    | FetchResolves (Some data) =>
        (exists d,
           (truthy (field data "ok") = false \/ truthy (field data "result") = false) /\
           get_prop data "description" = Return d /\
           field result_rejected "error"
           = if truthy d then d else VStr "Telegram API error") \/
        (exists fileId,
           truthy (field data "ok") = true /\
           UploadUrl.getFileIdFromPhoto (H := Sample.host) (field data "result")
           = Return fileId /\
           truthy fileId = false /\
           field result_rejected "error" = VStr "no file_id in response")
    end.
Proof.
  exact (processOne_failure_cause (H := Sample.host) item_rejected Sample.env "https://h"
           Sample.world _ result_rejected eq_refl eq_refl).
Defined.

Lemma processOne_names_witness :
  let w' := (UploadUrl.processOne (H := Sample.host) item_cat Sample.env "https://h"
               Sample.world).2 in
  exists u url params data result fileId fid,
    field item_cat "url" = VStr u /\
    (if img_url Sample.env
     then exists md,
       log w' = EvPut (fid +:+ "." +:+ UploadUrl.getExtensionFromUrl (H := Sample.host) u)
                  "" md
                :: EvFetch url params :: log Sample.world
     else log w' = EvFetch url params :: log Sample.world) /\
    fetch (Host := Sample.host) (log Sample.world) url params = FetchResolves (Some data) /\
    get_prop data "result" = Return result /\
    UploadUrl.getFileIdFromPhoto (H := Sample.host) result = Return fileId /\
    to_string fileId = Return fid /\
    field result_cat "src"
    = VStr ("https://h" +:+ "/file/" +:+ fid +:+ "." +:+
            UploadUrl.getExtensionFromUrl (H := Sample.host) u) /\
    ((exists t, nullish (field item_cat "title") = false /\
                to_string (field item_cat "title") = Return t /\
                trim t <> "" /\ field result_cat "fileName" = VStr (trim t)) \/
     ((nullish (field item_cat "title") = true \/
       exists t, to_string (field item_cat "title") = Return t /\ trim t = "") /\
      field result_cat "fileName"
      = VStr ("image_" +:+
              Math_random_id (Host := Sample.host) (EvFetch url params :: log Sample.world)
              +:+ "." +:+ UploadUrl.getExtensionFromUrl (H := Sample.host) u))).
Proof.
  exact (processOne_names (H := Sample.host) item_cat Sample.env "https://h"
           Sample.world _ result_cat eq_refl eq_refl).
Defined.

Lemma onRequestPost_one_result_per_item_witness :
  let request := request_post [item_cat; item_rejected] in
  let response :=
    UploadUrl.jsonResponse (VObj [("results", VArr [result_cat; result_rejected])]) 200 [] in
  exists json items results,
    request_json request = Some json /\
    field json "list" = VArr items /\
    items <> [] /\
    body response = VObj [("results", VArr results)] /\
    length results = length items /\
    Forall2 (fun item r => field r "url" = field item "url" /\
                           exists b, field r "success" = VBool b) items results.
Proof.
  exact (onRequestPost_one_result_per_item (H := Sample.host)
           (request_post [item_cat; item_rejected]) Sample.env Sample.world _
           (UploadUrl.jsonResponse
              (VObj [("results", VArr [result_cat; result_rejected])]) 200 [])
           eq_refl eq_refl).
Defined.

Lemma onRequestPost_rejections_witness :
  let response :=
    UploadUrl.errResponse
      "body must be { list: [ { url, title? } ] } with at least one item" 400 in
  headers response
  = [("Content-Type", "application/json");
     ("Access-Control-Allow-Origin", "*");
     ("Access-Control-Allow-Methods", "POST, OPTIONS");
     ("Access-Control-Allow-Headers", "Content-Type, Authorization")] /\
  (status response = 200 \/
   (Sample.world = Sample.world /\
    (exists message, body response = VObj [("error", VStr message)] /\ message <> "") /\
    (status response = 401 \/ status response = 500 \/ status response = 400))).
Proof.
  exact (onRequestPost_rejections (H := Sample.host) (request_post []) Sample.env
           Sample.world Sample.world
           (UploadUrl.errResponse
              "body must be { list: [ { url, title? } ] } with at least one item" 400)
           eq_refl).
Defined.

Lemma fetchAllWithMetadata_in_order_witness :
  let keyNames := ["a.png"; "zzz"] in
  let records := stored_record (kv Sample.world) <$> keyNames in
  let w' := (Listing.fetchAllWithMetadata (H := Sample.host) keyNames Sample.world).2 in
  records = stored_record (kv Sample.world) <$> keyNames /\
  Listing.name <$> records = keyNames /\
  log w' = reverse (EvGet <$> keyNames) ++ log Sample.world /\
  kv w' = kv Sample.world.
Proof.
  exact (fetchAllWithMetadata_in_order (H := Sample.host) ["a.png"; "zzz"] Sample.world _
           (stored_record (kv Sample.world) <$> ["a.png"; "zzz"]) eq_refl).
Defined.

Lemma fetchAllWithMetadata_all_or_nothing_witness :
  exists e,
    (Listing.fetchAllWithMetadata (H := flaky_host) ["a.png"; "b.jpg"; "c.gif"]
       Sample.world).1 = Throw e.
Proof.
  exact (fetchAllWithMetadata_all_or_nothing (H := flaky_host) ["a.png"; "b.jpg"; "c.gif"]
           "b.jpg" Sample.world
           ltac:(right; left)
           ltac:(intros l Hl; discriminate Hl)).
Defined.

Lemma onRequestGet_read_only_witness :
  let w' :=
    {| kv := kv Sample.world;
       log := [EvGet "c.gif"; EvGet "b.jpg"; EvGet "a.png";
               EvList Listing.LIST_PAGE_SIZE (VStr "p2");
               EvList Listing.LIST_PAGE_SIZE VUndefined] |} in
  kv w' = kv Sample.world /\
  exists calls, log w' = calls ++ log Sample.world /\ forallb is_read calls = true.
Proof.
  exact (onRequestGet_read_only (H := Sample.host) 5 request_list Sample.env Sample.world
           {| kv := kv Sample.world;
              log := [EvGet "c.gif"; EvGet "b.jpg"; EvGet "a.png";
                      EvList Listing.LIST_PAGE_SIZE (VStr "p2");
                      EvList Listing.LIST_PAGE_SIZE VUndefined] |}
           _ eq_refl).
Defined.

Lemma onRequestGet_lists_every_key_witness :
  let response :=
    Listing.jsonResponse
      (VObj [("list",
              VArr [VObj [("key", VStr "a.png"); ("url", VStr "https://h/file/a.png");
                          ("fileName", VStr "a"); ("uploadTime", VNull)];
                    VObj [("key", VStr "b.jpg"); ("url", VStr "https://h/file/b.jpg");
                          ("fileName", VStr "b.jpg"); ("uploadTime", VNull)];
                    VObj [("key", VStr "c.gif"); ("url", VStr "https://h/file/c.gif");
                          ("fileName", VStr "c.gif"); ("uploadTime", VNull)]]);
             ("total", VNum (Int 3))]) 200 [] in
  exists cur names w1 items,
    Listing.listAllKeys (H := Sample.host) 5 cur Sample.world = Some (Return names, w1) /\
    body response
    = VObj [("list", VArr items); ("total", VNum (Int (Z.of_nat (length items))))] /\
    length items = length names /\
    Forall2 (fun key item =>
               Listing.buildItem (H := Sample.host) (url_origin request_list) key
                 (Listing.metadata (stored_record (kv Sample.world) key))
                 (Listing.value_text (stored_record (kv Sample.world) key)) = Return item /\
               field item "key" = VStr key) names items.
Proof.
  exact (onRequestGet_lists_every_key (H := Sample.host) 5 request_list Sample.env
           Sample.world _
           (Listing.jsonResponse
              (VObj [("list",
                      VArr [VObj [("key", VStr "a.png"); ("url", VStr "https://h/file/a.png");
                                  ("fileName", VStr "a"); ("uploadTime", VNull)];
                            VObj [("key", VStr "b.jpg"); ("url", VStr "https://h/file/b.jpg");
                                  ("fileName", VStr "b.jpg"); ("uploadTime", VNull)];
                            VObj [("key", VStr "c.gif"); ("url", VStr "https://h/file/c.gif");
                                  ("fileName", VStr "c.gif"); ("uploadTime", VNull)]]);
                     ("total", VNum (Int 3))]) 200 [])
           eq_refl eq_refl).
Defined.

Lemma upload_then_list_witness :
  let w' := (UploadUrl.processOne (H := Sample.host) item_cat Sample.env "https://h"
               Sample.world).2 in
  exists key fileName now,
    field result_cat "src" = VStr ("https://h" +:+ "/file/" +:+ key) /\
    field result_cat "fileName" = VStr fileName /\
    Listing.buildItem (H := Sample.host) "https://h"
      (Listing.name (stored_record (kv w') key))
      (Listing.metadata (stored_record (kv w') key))
      (Listing.value_text (stored_record (kv w') key))
    = Return (VObj [("key", VStr key);
                    ("url", VStr ("https://h" +:+ "/file/" +:+ Listing.encodeURIComponent key));
                    ("fileName", VStr fileName); ("uploadTime", VNum (Int now));
                    ("storageType", VStr "telegram")]) /\
    (all_chars Listing.uri_unreserved key = true ->
     VStr ("https://h" +:+ "/file/" +:+ Listing.encodeURIComponent key)
     = field result_cat "src").
Proof.
  exact (upload_then_list (H := Sample.host) item_cat Sample.env "https://h" Sample.world _
           result_cat eq_refl eq_refl eq_refl).
Defined.

Lemma item_url_determines_key_witness :
  let item1 := VObj [("key", VStr "a b"); ("url", VStr "https://h/file/a%20b");
                     ("fileName", VStr "a b"); ("uploadTime", VNull)] in
  let item2 := VObj [("key", VStr "a%20b"); ("url", VStr "https://h/file/a%2520b");
                     ("fileName", VStr "a%20b"); ("uploadTime", VNull)] in
  (field item1 "url" = field item2 "url" -> "a b" = "a%20b") /\
  exists segment,
    field item1 "url" = VStr ("https://h" +:+ "/file/" +:+ segment) /\
    all_chars (fun x => Listing.uri_unreserved x || Ascii.eqb x "%") segment = true.
Proof.
  exact (item_url_determines_key (H := Sample.host) "https://h" "a b" "a%20b" VNull VNull
           None None
           (VObj [("key", VStr "a b"); ("url", VStr "https://h/file/a%20b");
                  ("fileName", VStr "a b"); ("uploadTime", VNull)])
           (VObj [("key", VStr "a%20b"); ("url", VStr "https://h/file/a%2520b");
                  ("fileName", VStr "a%20b"); ("uploadTime", VNull)])
           eq_refl eq_refl).
Defined.

